(** * derJD.general: the [dict2ini] filter and the [http] inventory plugin

    A shallow embedding of [plugins/filter/dict2ini.py] and
    [plugins/inventory/http.py].  Python values are a small inductive
    type, dictionaries are association lists in insertion order (the
    order Python iterates them in), exceptions are values of [exn], and
    the inventory plugin runs in a state monad that keeps the plugin
    instance and the trace of every call that leaves the plugin (HTTP
    requests, body decoding, inventory calls). *)

From Stdlib Require Import ZArith String List Ascii Bool DecimalString Lia.
Import ListNotations.

Set Warnings "-register-all".
Local Open Scope string_scope.

(** ** Python values *)

(** The values YAML and JSON produce.  A float is kept as its literal:
    the plugins only pass it along.  Dictionary keys are strings, as in
    every JSON object. *)
Inductive pyval : Type :=
| PNone
| PBool (b : bool)
| PInt (z : Z)
| PFloat (lit : string)
| PStr (s : string)
| PList (l : list pyval)
| PDict (d : list (string * pyval)).

Definition dict : Type := list (string * pyval).

(** Exceptions the two plugins raise or let through. *)
Inductive exn : Type :=
| AnsibleError (msg : string)
| AnsibleParserError (msg : string)
| AnsibleOptionsError (msg : string)
| KeyError (key : pyval)
| IndexError
| TypeError
| AttributeError (attr : string)
| ExternalError (origin : string).

Inductive result (A : Type) : Type :=
| Ok (a : A)
| Err (e : exn).
Arguments Ok {A} a.
Arguments Err {A} e.

(** The one-character string holding a double quote. *)
Definition dquote : string := String (ascii_of_nat 34) EmptyString.

(** [isinstance(v, str)] *)
Definition is_str (v : pyval) : bool :=
  match v with PStr _ => true | _ => false end.

(** [d[k]] on the association list: the first binding of [k]. *)
Fixpoint lookup (k : string) (d : dict) : option pyval :=
  match d with
  | [] => None
  | (k', v) :: d' => if String.eqb k k' then Some v else lookup k d'
  end.

Definition keys (d : dict) : list string := map fst d.

(** A Python dict holds each key once. *)
Definition wf_dict (d : dict) : Prop := NoDup (keys d).

(** [v.items()]: only a dict has the method. *)
Definition py_items (v : pyval) : result dict :=
  match v with
  | PDict d => Ok d
  | _ => Err (AttributeError "items")
  end.

(** A [for] loop over a list whose body updates a local state and may
    raise: the first exception ends the loop. *)
Fixpoint for_each {A S : Type} (body : A -> S -> result S) (l : list A) (s : S)
  : result S :=
  match l with
  | [] => Ok s
  | x :: l' =>
      match body x s with
      | Ok s' => for_each body l' s'
      | Err e => Err e
      end
  end.

(** ** The filter: [plugins/filter/dict2ini.py] *)

Module Dict2Ini.

(** [dict(section=..., option=..., value=...)] *)
Record ConfigRecord : Type := mkRecord {
  section : string;
  option : string;
  value : pyval
}.

(** [f'"{value}"'] for a string [value]. *)
Definition fquote (s : string) : string := dquote ++ s ++ dquote.

(** The body of the inner loop up to the [append]:
    [if isinstance(value, str) and quote: value = f'"{value}"']. *)
Definition quoted (quote : bool) (value : pyval) : pyval :=
  match value with
  | PStr s => if quote then PStr (fquote s) else value
  | _ => value
  end.

(** [dict2ini(data, quote=True)]: [ret] is the list the loops append to. *)
Definition dict2ini (data : pyval) (quote : bool) : result (list ConfigRecord) :=
  match py_items data with
  | Err e => Err e
  | Ok sections =>
      for_each
        (fun '(section, elements) ret =>
           match py_items elements with
           | Err e => Err e
           | Ok options =>
               for_each
                 (fun '(option, value) ret =>
                    let value := quoted quote value in
                    Ok (ret ++ [mkRecord section option value])%list)
                 options ret
           end)
        sections []
  end.

(** A mapping of mappings, written with its sections and their options in
    iteration order. *)
Definition sections : Type := list (string * dict).

Definition mapping_of (m : sections) : pyval :=
  PDict (map (fun '(s, opts) => (s, PDict opts)) m).

(** The spec's reading of the filter: outer order, then inner order, one
    record per option. *)
Definition flatten_spec (m : sections) (quote : bool) : list ConfigRecord :=
  flat_map (fun '(s, opts) =>
              map (fun '(o, v) => mkRecord s o (quoted quote v)) opts) m.

(** The (section, option, value) pairs of the input, in iteration order. *)
Definition triples (m : sections) : list (string * string * pyval) :=
  flat_map (fun '(s, opts) => map (fun '(o, v) => (s, o, v)) opts) m.

Definition option_count (m : sections) : nat :=
  list_sum (map (fun '(_, opts) => length opts) m).

End Dict2Ini.

(** ** Python operations the inventory plugin applies to the document *)

(** [l[i]] on a sequence: negative indices count from the end. *)
Definition py_index {A : Type} (l : list A) (i : Z) : option A :=
  let n := Z.of_nat (length l) in
  let j := if (i <? 0)%Z then (i + n)%Z else i in
  if ((0 <=? j) && (j <? n))%Z then nth_error l (Z.to_nat j) else None.

(** A byte that continues a UTF-8 sequence: 10xxxxxx. *)
Definition is_continuation (c : ascii) : bool :=
  let n := nat_of_ascii c in
  ((128 <=? n) && (n <? 192))%nat.

(** A Python [str] is kept as its UTF-8 bytes.  Its code points, each as
    the string of its own bytes: a byte opens a new code point unless it
    is a continuation byte, which belongs to the code point before it. *)
Fixpoint code_points (s : string) : list string :=
  match s with
  | EmptyString => []
  | String c s' =>
      match code_points s' with
      | String c' u :: us =>
          if is_continuation c' then String c (String c' u) :: us
          else String c EmptyString :: String c' u :: us
      | us => String c EmptyString :: us
      end
  end.

(** The characters of a string, each as a one-character string. *)
Definition chars (s : string) : list pyval := map PStr (code_points s).

(** An index usable on a list or a string: an [int], or a [bool] (a
    subclass of [int]). *)
Definition as_index (k : pyval) : option Z :=
  match k with
  | PInt i => Some i
  | PBool b => Some (if b then 1%Z else 0%Z)
  | _ => None
  end.

Definition of_index (o : option pyval) : result pyval :=
  match o with Some v => Ok v | None => Err IndexError end.

(** [c[k]] *)
Definition py_getitem (c k : pyval) : result pyval :=
  match c with
  | PDict d =>
      match k with
      | PStr s => match lookup s d with Some v => Ok v | None => Err (KeyError k) end
      | PList _ | PDict _ => Err TypeError
      | _ => Err (KeyError k)
      end
  | PList l =>
      match as_index k with
      | Some i => of_index (py_index l i)
      | None => Err TypeError
      end
  | PStr s =>
      match as_index k with
      | Some i => of_index (py_index (chars s) i)
      | None => Err TypeError
      end
  | _ => Err TypeError
  end.

(** The values [for x in v] binds [x] to. *)
Definition py_iter (v : pyval) : result (list pyval) :=
  match v with
  | PDict d => Ok (map PStr (keys d))
  | PList l => Ok l
  | PStr s => Ok (chars s)
  | _ => Err TypeError
  end.

(** [v.keys()] *)
Definition py_keys (v : pyval) : result (list string) :=
  match v with
  | PDict d => Ok (keys d)
  | _ => Err (AttributeError "keys")
  end.

(** [k in ks] for a string [k] and the keys of a dict. *)
Definition mem (k : string) (ks : list string) : bool :=
  existsb (String.eqb k) ks.

(** [v == s] for a string literal [s]. *)
Definition eq_str (v : pyval) (s : string) : bool :=
  match v with PStr t => String.eqb t s | _ => false end.

(** [needle in hay] on strings. *)
Fixpoint contains (needle hay : string) {struct hay} : bool :=
  String.prefix needle hay
  || match hay with
     | EmptyString => false
     | String _ hay' => contains needle hay'
     end.

Definition lower_ascii (c : ascii) : ascii :=
  let n := nat_of_ascii c in
  if ((65 <=? n) && (n <=? 90))%nat then ascii_of_nat (n + 32) else c.

(** [s.lower()] on ASCII letters. *)
Fixpoint lower (s : string) : string :=
  match s with
  | EmptyString => EmptyString
  | String c s' => String (lower_ascii c) (lower s')
  end.

(** [str(n)] for an [int]. *)
Definition str_of_int (n : Z) : string := NilZero.string_of_int (Z.to_int n).

(** [str(x)] for a value that is a string or [None]. *)
Definition str_of_opt (x : option string) : string :=
  match x with Some s => s | None => "None" end.

Definition nl : string := String (ascii_of_nat 10) EmptyString.
Definition indent12 : string := "            ".
Definition indent16 : string := "                ".

(** ** The inventory plugin: [plugins/inventory/http.py] *)

Module Http.

(** The [data=] payload of the GitLab login form. *)
Definition form : Type := list (string * option string).

(** The calls into [requests]. *)
Inductive request : Type :=
| Get (url : option string) (auth : option (string * string))
| SessionGet (url : option string) (data : option form)
| SessionPost (url : string) (data : form).

(** What the plugin reads of a [requests.Response]: [json] is the outcome
    of [r.json()], an exception when the body does not decode. *)
Record response : Type := mkResponse {
  status_code : Z;
  headers : list (string * string);
  text : string;
  json : result pyval
}.

(** The calls into the host's inventory. *)
Inductive sink_call : Type :=
| PopulateHostVars (hosts : list pyval) (variables : pyval)
| AddGroup (group : pyval)
| AddHost (host group : pyval)
| AddChild (group child : pyval).

(** Everything that leaves the plugin, in the order it happens. *)
Inductive event : Type :=
| Request (r : request)
| JsonDecode (r : response)
| Sink (c : sink_call).

(** An element of a parsed page, as its [attrib]; a parsed page, as its
    [xpath] method. *)
Definition element : Type := list (string * string).
Definition tree : Type := string -> list element.

(** What the plugin does not own: the process environment; the outcome
    of [super().parse] and [_read_config_data], which raise when the
    configuration file cannot be loaded or an option is missing or
    refused; the options they loaded; the network; the inventory (which
    may refuse a call by raising) and [lxml].  The network and the
    inventory answer from the history of the run. *)
Record host : Type := mkHost {
  getenv : string -> option string;
  read_config_data : result unit;
  get_option : string -> option string;
  send : list event -> request -> result response;
  sink : list event -> sink_call -> option exn;
  html_fromstring : string -> result tree
}.

(** The attributes of the plugin instance. *)
Record plugin : Type := mkPlugin {
  url : option string;
  auth_method : option string;
  username : option string;
  password : option string;
  data : pyval
}.

Record state : Type := mkState {
  self : plugin;
  trace : list event
}.

(** A method body: it returns or raises, and leaves a state either way. *)
Definition M (A : Type) : Type := state -> result A * state.

Definition ret {A : Type} (a : A) : M A := fun s => (Ok a, s).

Definition raise {A : Type} (e : exn) : M A := fun s => (Err e, s).

Definition bind {A B : Type} (m : M A) (k : A -> M B) : M B :=
  fun s =>
    match m s with
    | (Ok a, s') => k a s'
    | (Err e, s') => (Err e, s')
    end.

Notation "x <- m ;; k" := (bind m (fun x => k))
  (at level 61, m at next level, right associativity).
Notation "m ;; k" := (bind m (fun _ => k))
  (at level 61, right associativity).

Definition lift {A : Type} (r : result A) : M A :=
  match r with Ok a => ret a | Err e => raise e end.

Definition gets {A : Type} (f : plugin -> A) : M A := fun s => (Ok (f (self s)), s).

Definition modify (f : plugin -> plugin) : M unit :=
  fun s => (Ok tt, mkState (f (self s)) (trace s)).

Definition set_url (v : option string) : M unit :=
  modify (fun p => mkPlugin v (auth_method p) (username p) (password p) (data p)).
Definition set_auth_method (v : option string) : M unit :=
  modify (fun p => mkPlugin (url p) v (username p) (password p) (data p)).
Definition set_username (v : option string) : M unit :=
  modify (fun p => mkPlugin (url p) (auth_method p) v (password p) (data p)).
Definition set_password (v : option string) : M unit :=
  modify (fun p => mkPlugin (url p) (auth_method p) (username p) v (data p)).
Definition set_data (v : pyval) : M unit :=
  modify (fun p => mkPlugin (url p) (auth_method p) (username p) (password p) v).

Definition log (ev : event) (s : state) : state :=
  mkState (self s) (trace s ++ [ev]).

(** A call into [requests]: recorded, then answered by the network. *)
Definition request_ (h : host) (req : request) : M response :=
  fun s => (send h (trace s) req, log (Request req) s).

(** [r.json()] *)
Definition decode (r : response) : M pyval :=
  fun s => (json r, log (JsonDecode r) s).

(** A call into the inventory: recorded, then accepted or refused. *)
Definition call (h : host) (c : sink_call) : M unit :=
  fun s =>
    (match sink h (trace s) c with None => Ok tt | Some e => Err e end,
     log (Sink c) s).

Definition when (b : bool) (m : M unit) : M unit := if b then m else ret tt.

(** A [for] loop whose body runs in [M]. *)
Fixpoint for_m {A : Type} (l : list A) (body : A -> M unit) : M unit :=
  match l with
  | [] => ret tt
  | x :: l' => body x ;; for_m l' body
  end.

Definition is_none {A : Type} (o : option A) : bool :=
  match o with None => true | Some _ => false end.

(** [InventoryModule.__init__] *)
Definition init (h : host) : state :=
  mkState (mkPlugin (getenv h "HTTP_URL") (getenv h "HTTP_AUTH_METHOD")
                    (getenv h "HTTP_USERNAME") (getenv h "HTTP_PASSWORD") PNone)
          [].

(** [data.headers[name]]: the headers of a response are looked up without
    regard to case, and a missing one is a [KeyError] of the lowered name. *)
Definition header (name : string) (r : response) : result string :=
  match find (fun kv => String.eqb (lower (fst kv)) (lower name)) (headers r) with
  | Some kv => Ok (snd kv)
  | None => Err (KeyError (PStr (lower name)))
  end.

Definition bad_status_msg (code : Z) : string :=
  nl ++ indent16 ++ "Server returned status code " ++ str_of_int code ++ "." ++
  nl ++ indent16 ++ "Maybe server is in Maintenance or unreachable..." ++
  nl ++ indent12.

Definition not_json_msg (u : option string) : string :=
  nl ++ indent16 ++ str_of_opt u ++ " did not return json." ++
  nl ++ indent16 ++ "The page must return the same content as the" ++
  nl ++ indent16 ++ "`ansible-inventory --list` command." ++
  nl ++ indent12.

Definition url_missing_msg : string :=
  nl ++ indent16 ++ "url is missing." ++
  nl ++ indent16 ++ "Please set it either as parameter" ++
  nl ++ indent16 ++ "or environment variable (HTTP_URL)" ++
  nl ++ indent12.

Definition no_data_msg : string :=
  "Did not received any data. Can not parse inventory.".

(** [InventoryModule.is_valid_content].  The two [display.vvv] lines print
    nothing the model keeps, but their f-strings are evaluated first: the
    first one reads the Content-Type header. *)
Definition is_valid_content (data : response) : M bool :=
  _ <- lift (header "Content-Type" data) ;;
  if (status_code data >=? 300)%Z then
    raise (AnsibleError (bad_status_msg (status_code data)))
  else
    ct <- lift (header "Content-Type" data) ;;
    if contains "json" ct then ret true
    else
      u <- gets url ;;
      raise (AnsibleParserError (not_json_msg u)).

(** [InventoryModule.get_generic_page] *)
Definition get_generic_page (h : host) : M pyval :=
  u <- gets url ;;
  name <- gets username ;;
  pass <- gets password ;;
  r <- match name, pass with
       | Some n, Some p => request_ h (Get u (Some (n, p)))
       | _, _ => request_ h (Get u None)
       end ;;
  valid <- is_valid_content r ;;
  if valid then decode r else ret PNone.

Definition xmeta : string := "//meta[@property=" ++ dquote ++ "og:url" ++ dquote ++ "]".
Definition xinput : string :=
  "//input[@name=" ++ dquote ++ "authenticity_token" ++ dquote ++ "]".

(** [l[0]] *)
Definition first {A : Type} (l : list A) : result A :=
  match l with x :: _ => Ok x | [] => Err IndexError end.

(** [e.attrib[name]] *)
Definition attrib (e : element) (name : string) : result string :=
  match find (fun kv => String.eqb (fst kv) name) e with
  | Some kv => Ok (snd kv)
  | None => Err (KeyError (PStr name))
  end.

(** [InventoryModule.get_gitlab_page] *)
Definition get_gitlab_page (h : host) : M pyval :=
  u <- gets url ;;
  oauth <- request_ h (SessionGet u None) ;;
  tree <- lift (html_fromstring h (text oauth)) ;;
  meta <- lift (first (tree xmeta)) ;;
  login_url <- lift (attrib meta "content") ;;
  input <- lift (first (tree xinput)) ;;
  token <- lift (attrib input "value") ;;
  name <- gets username ;;
  pass <- gets password ;;
  let auth := [("authenticity_token", Some token);
               ("user[login]", name);
               ("user[password]", pass)] in
  _ <- request_ h (SessionPost login_url auth) ;;
  r <- request_ h (SessionGet u (Some auth)) ;;
  valid <- is_valid_content r ;;
  if valid then decode r else ret PNone.

(** [InventoryModule.add_hostvars].  The f-string of the trace line reads
    [hostvars[host]] before the call does. *)
Definition add_hostvars (h : host) (data : pyval) : M unit :=
  meta <- lift (py_getitem data (PStr "_meta")) ;;
  hostvars <- lift (py_getitem meta (PStr "hostvars")) ;;
  hosts <- lift (py_iter hostvars) ;;
  for_m hosts (fun host =>
    _ <- lift (py_getitem hostvars host) ;;
    vars <- lift (py_getitem hostvars host) ;;
    call h (PopulateHostVars [host] vars)).

(** [mode in groups[group].keys()] *)
Definition has_mode (groups group : pyval) (mode : string) : M bool :=
  g <- lift (py_getitem groups group) ;;
  ks <- lift (py_keys g) ;;
  ret (mem mode ks).

(** [groups[group][mode]], iterated *)
Definition members (groups group : pyval) (mode : string) : M (list pyval) :=
  g <- lift (py_getitem groups group) ;;
  l <- lift (py_getitem g (PStr mode)) ;;
  lift (py_iter l).

(** [InventoryModule.add_groups] *)
Definition add_groups (h : host) (groups : pyval) (mode : string) : M unit :=
  gs <- lift (py_iter groups) ;;
  for_m gs (fun group =>
    if eq_str group "_meta" then ret tt
    else
      call h (AddGroup group) ;;
      (if String.eqb mode "hosts" then
         b <- has_mode groups group mode ;;
         when b (hosts <- members groups group "hosts" ;;
                 for_m hosts (fun host => call h (AddHost host group)))
       else ret tt) ;;
      (if String.eqb mode "children" then
         b <- has_mode groups group mode ;;
         when b (children <- members groups group "children" ;;
                 for_m children (fun child => call h (AddChild group child)))
       else ret tt)).

(** [self.auth_method in [None, "None", "basic"]] *)
Definition generic_auth (a : option string) : bool :=
  match a with
  | None => true
  | Some s => String.eqb s "None" || String.eqb s "basic"
  end.

(** [self.auth_method == "gitlab"] *)
Definition gitlab_auth (a : option string) : bool :=
  match a with
  | None => false
  | Some s => String.eqb s "gitlab"
  end.

Definition is_py_none (v : pyval) : bool :=
  match v with PNone => true | _ => false end.

(** [InventoryModule.parse].  [super().parse] and [_read_config_data] are
    the host's: they return or raise, and what they load is read back
    through [get_option]. *)
Definition parse (h : host) : M unit :=
  lift (read_config_data h) ;;
  u <- gets url ;;
  when (is_none u) (set_url (get_option h "url")) ;;
  a <- gets auth_method ;;
  when (is_none a) (set_auth_method (get_option h "auth_method")) ;;
  n <- gets username ;;
  when (is_none n) (set_username (get_option h "username")) ;;
  p <- gets password ;;
  when (is_none p) (set_password (get_option h "password")) ;;
  u <- gets url ;;
  (if is_none u then raise (AnsibleError url_missing_msg) else ret tt) ;;
  a <- gets auth_method ;;
  when (generic_auth a) (d <- get_generic_page h ;; set_data d) ;;
  a <- gets auth_method ;;
  when (gitlab_auth a) (d <- get_gitlab_page h ;; set_data d) ;;
  d <- gets data ;;
  if is_py_none d then raise (AnsibleParserError no_data_msg)
  else
    add_hostvars h d ;;
    add_groups h d "hosts" ;;
    add_groups h d "children".

(** Running a fresh instance: [InventoryModule()] then [parse]. *)
Definition run (h : host) : result unit * state := parse h (init h).

End Http.

(** ** The phases of [parse] *)

Module Phases.
Import Http.

(** The value an option has after the environment and the configuration
    file were both asked, the environment first. *)
Definition resolved (h : host) (var opt : string) : option string :=
  match getenv h var with
  | Some v => Some v
  | None => get_option h opt
  end.

(** The first lines of [parse]: each attribute the environment left
    unset is read from the configuration. *)
Definition resolve (h : host) : M unit :=
  u <- gets url ;;
  when (is_none u) (set_url (get_option h "url")) ;;
  a <- gets auth_method ;;
  when (is_none a) (set_auth_method (get_option h "auth_method")) ;;
  n <- gets username ;;
  when (is_none n) (set_username (get_option h "username")) ;;
  p <- gets password ;;
  when (is_none p) (set_password (get_option h "password")).

(** The instance once [resolve] has run on a fresh one. *)
Definition resolved_state (h : host) : state :=
  mkState (mkPlugin (resolved h "HTTP_URL" "url")
                    (resolved h "HTTP_AUTH_METHOD" "auth_method")
                    (resolved h "HTTP_USERNAME" "username")
                    (resolved h "HTTP_PASSWORD" "password") PNone)
          [].

(** The url test and the two fetch branches of [parse]. *)
Definition fetch (h : host) : M unit :=
  u <- gets url ;;
  (if is_none u then raise (AnsibleError url_missing_msg) else ret tt) ;;
  a <- gets auth_method ;;
  when (generic_auth a) (d <- get_generic_page h ;; set_data d) ;;
  a <- gets auth_method ;;
  when (gitlab_auth a) (d <- get_gitlab_page h ;; set_data d).

(** [parse] up to the [if self.data is None] test: the options are
    resolved and the page is fetched. *)
Definition resolve_and_fetch (h : host) : M unit :=
  lift (read_config_data h) ;;
  u <- gets url ;;
  when (is_none u) (set_url (get_option h "url")) ;;
  a <- gets auth_method ;;
  when (is_none a) (set_auth_method (get_option h "auth_method")) ;;
  n <- gets username ;;
  when (is_none n) (set_username (get_option h "username")) ;;
  p <- gets password ;;
  when (is_none p) (set_password (get_option h "password")) ;;
  u <- gets url ;;
  (if is_none u then raise (AnsibleError url_missing_msg) else ret tt) ;;
  a <- gets auth_method ;;
  when (generic_auth a) (d <- get_generic_page h ;; set_data d) ;;
  a <- gets auth_method ;;
  when (gitlab_auth a) (d <- get_gitlab_page h ;; set_data d).

(** The rest of [parse]. *)
Definition populate (h : host) : M unit :=
  d <- gets data ;;
  if is_py_none d then raise (AnsibleParserError no_data_msg)
  else
    add_hostvars h d ;;
    add_groups h d "hosts" ;;
    add_groups h d "children".

(** The inventory calls of a trace. *)
Definition sink_calls (t : list event) : list sink_call :=
  flat_map (fun ev => match ev with Sink c => [c] | _ => [] end) t.

(** The requests of a trace. *)
Definition requests (t : list event) : list request :=
  flat_map (fun ev => match ev with Request r => [r] | _ => [] end) t.

(** The responses whose body was decoded. *)
Definition decoded (t : list event) : list response :=
  flat_map (fun ev => match ev with JsonDecode r => [r] | _ => [] end) t.

(** The request [get_generic_page] sends: with credentials when the
    instance has both. *)
Definition generic_request (p : plugin) : request :=
  match username p, password p with
  | Some n, Some pw => Get (url p) (Some (n, pw))
  | _, _ => Get (url p) None
  end.

End Phases.

(** ** What the claims speak of *)

Module Expected.
Import Http Phases.

(** [hay] has [needle] as a substring. *)
Definition substring_of (needle hay : string) : Prop :=
  exists pre post, hay = pre ++ needle ++ post.

(** [l] holds each of its strings once. *)
Fixpoint distinct (l : list string) : bool :=
  match l with
  | [] => true
  | x :: l' => negb (mem x l') && distinct l'
  end.

(** [data['_meta']['hostvars']] when both are there and are mappings. *)
Definition hostvars_of (d : dict) : option dict :=
  match lookup "_meta" d with
  | Some (PDict m) =>
      match lookup "hostvars" m with
      | Some (PDict hv) => Some hv
      | _ => None
      end
  | _ => None
  end.

Definition list_or_absent (key : string) (gd : dict) : bool :=
  match lookup key gd with
  | None | Some (PList _) => true
  | Some _ => false
  end.

(** A group of the document: a mapping whose [hosts] and [children], when
    it has them, are lists. *)
Definition group_ok (v : pyval) : bool :=
  match v with
  | PDict gd => list_or_absent "hosts" gd && list_or_absent "children" gd
  | _ => false
  end.

(** The document has the shape of an inventory: a dict with
    [_meta.hostvars] a dict, and every other key a group. *)
Definition well_formed (d : dict) : bool :=
  distinct (keys d)
  && match hostvars_of d with
     | Some hv => distinct (keys hv)
     | None => false
     end
  && forallb (fun kv => String.eqb (fst kv) "_meta" || group_ok (snd kv)) d.

(** The list under [key] of a group. *)
Definition listed (key : string) (v : pyval) : list pyval :=
  match v with
  | PDict gd =>
      match lookup key gd with
      | Some (PList l) => l
      | _ => []
      end
  | _ => []
  end.

(** The top-level entries other than [_meta]. *)
Definition groups_of (d : dict) : dict :=
  filter (fun kv => negb (String.eqb (fst kv) "_meta")) d.

(** Step (a): one registration per host. *)
Definition hostvars_pass (hv : dict) : list sink_call :=
  map (fun kv => PopulateHostVars [PStr (fst kv)] (snd kv)) hv.

(** Step (b): every group registered and given the hosts it lists. *)
Definition hosts_pass (d : dict) : list sink_call :=
  flat_map (fun kv => AddGroup (PStr (fst kv))
                      :: map (fun x => AddHost x (PStr (fst kv))) (listed "hosts" (snd kv)))
           (groups_of d).

(** Step (c): every group registered again and given the children it
    lists. *)
Definition children_pass (d : dict) : list sink_call :=
  flat_map (fun kv => AddGroup (PStr (fst kv))
                      :: map (fun c => AddChild (PStr (fst kv)) c) (listed "children" (snd kv)))
           (groups_of d).

Definition is_hostvars (c : sink_call) : bool :=
  match c with PopulateHostVars _ _ => true | _ => false end.
Definition is_add_group (c : sink_call) : bool :=
  match c with AddGroup _ => true | _ => false end.
Definition is_add_host (c : sink_call) : bool :=
  match c with AddHost _ _ => true | _ => false end.
Definition is_add_child (c : sink_call) : bool :=
  match c with AddChild _ _ => true | _ => false end.

(** A call that names a group: [add_group], [add_host], [add_child]. *)
Definition is_group_op (c : sink_call) : bool := negb (is_hostvars c).

Definition hosts_pass_op (c : sink_call) : bool := is_add_group c || is_add_host c.
Definition children_pass_op (c : sink_call) : bool := is_add_group c || is_add_child c.

(** Every call that satisfies [P] comes before every call that satisfies
    [Q]. *)
Definition precedes (P Q : sink_call -> bool) (l : list sink_call) : Prop :=
  forall i j x y,
    nth_error l i = Some x -> nth_error l j = Some y ->
    P x = true -> Q y = true -> (i < j)%nat.

(** The group a call is made on. *)
Definition group_of (c : sink_call) : option pyval :=
  match c with
  | PopulateHostVars _ _ => None
  | AddGroup g => Some g
  | AddHost _ g => Some g
  | AddChild g _ => Some g
  end.

(** The event is an inventory call on the group [_meta]. *)
Definition on_meta (ev : event) : bool :=
  match ev with
  | Sink c => match group_of c with Some g => eq_str g "_meta" | None => false end
  | _ => false
  end.

(** The call is [add_group(g)]. *)
Definition adds_group (g : string) (c : sink_call) : bool :=
  match c with
  | AddGroup (PStr g') => String.eqb g g'
  | _ => false
  end.

Definition count {A : Type} (p : A -> bool) (l : list A) : nat := length (filter p l).

Definition is_sink (ev : event) : bool :=
  match ev with Sink _ => true | _ => false end.

(** [AnsibleError] and its subclasses. *)
Definition is_ansible_error (e : exn) : bool :=
  match e with
  | AnsibleError _ | AnsibleParserError _ | AnsibleOptionsError _ => true
  | _ => false
  end.

(** The event is an inventory call that satisfies [p]. *)
Definition pass_event (p : sink_call -> bool) (ev : event) : bool :=
  match ev with Sink c => p c | _ => false end.

(** Whatever the outcome, [m] extends the trace, and by a run of events
    that [L] holds of. *)
Definition emitsL {A : Type} (L : list event -> Prop) (m : M A) : Prop :=
  forall s, exists l, trace (snd (m s)) = (trace s ++ l)%list /\ L l.

(** [m] extends the trace only by events that satisfy [P]. *)
Definition emits {A : Type} (P : event -> bool) (m : M A) : Prop :=
  emitsL (fun l => forallb P l = true) m.

(** A run of [L1] followed by a run of [L2]. *)
Definition cat (L1 L2 : list event -> Prop) (l : list event) : Prop :=
  exists l1 l2, l = (l1 ++ l2)%list /\ L1 l1 /\ L2 l2.

(** The state with more events in its trace. *)
Definition extend (s : state) (l : list event) : state :=
  mkState (self s) (trace s ++ l).

(** The call a pass makes for a member of a group. *)
Definition member_call (mode : string) (g x : pyval) : sink_call :=
  if String.eqb mode "hosts" then AddHost x g else AddChild g x.

(** The calls of one pass of [add_groups] over a well-formed document. *)
Definition group_pass (mode : string) (d : dict) : list sink_call :=
  flat_map (fun kv => AddGroup (PStr (fst kv))
                      :: map (member_call mode (PStr (fst kv))) (listed mode (snd kv)))
           (groups_of d).

(** The calls a pass of [add_groups] in [mode] may make. *)
Definition mode_op (mode : string) (c : sink_call) : bool :=
  is_add_group c
  || (String.eqb mode "hosts" && is_add_host c)
  || (String.eqb mode "children" && is_add_child c).

End Expected.

(** ** The rest of the plugin *)

Module Discovery.

(** [s.endswith(suffix)] *)
Fixpoint endswith (s suffix : string) : bool :=
  String.eqb s suffix
  || match s with
     | EmptyString => false
     | String _ s' => endswith s' suffix
     end.

(** [InventoryModule.verify_file]; [super().verify_file] is the host's
    test that the path can be read. *)
Definition verify_file (base_verify_file : string -> bool) (path : string) : bool :=
  base_verify_file path
  && (endswith path "http_inventory.yaml" || endswith path "http_inventory.yml").

End Discovery.

Module Frame.
Import Http.

(** [m] leaves the attribute [f] of the instance as it found it, whatever
    its outcome. *)
Definition keeps {A B : Type} (f : plugin -> B) (m : M A) : Prop :=
  forall s, f (self (snd (m s))) = f (self s).

(** The attributes [parse] resolves. *)
Definition settings (p : plugin)
  : option string * option string * option string * option string :=
  (url p, auth_method p, username p, password p).

(** An attribute after [parse]: what it held, or else what is configured. *)
Definition or_option (held configured : option string) : option string :=
  match held with
  | Some v => Some v
  | None => configured
  end.

Definition is_dict (v : pyval) : bool :=
  match v with PDict _ => true | _ => false end.

(** The form [get_gitlab_page] posts. *)
Definition login_form (token : string) (p : plugin) : form :=
  [("authenticity_token", Some token);
   ("user[login]", username p);
   ("user[password]", password p)].

(** What [get_gitlab_page] takes from the login page: the url of the
    first og:url meta tag and the value of the first authenticity_token
    input; the first lookup that fails gives the exception. *)
Definition login_target (page : tree) : result (string * string) :=
  match first (page xmeta) with
  | Err e => Err e
  | Ok meta =>
      match attrib meta "content" with
      | Err e => Err e
      | Ok login_url =>
          match first (page xinput) with
          | Err e => Err e
          | Ok input =>
              match attrib input "value" with
              | Err e => Err e
              | Ok token => Ok (login_url, token)
              end
          end
      end
  end.

(** The events of a GitLab login and fetch that goes through. *)
Definition gitlab_events (u : option string) (login_url : string) (f : form)
    (r : response) : list event :=
  [Request (SessionGet u None);
   Request (SessionPost login_url f);
   Request (SessionGet u (Some f));
   JsonDecode r].

(** What [for x in group[key]] goes over, for a group that is a mapping
    and has the key: the elements of a list, the keys of a mapping, the
    characters of a string. *)
Definition iterated (key : string) (v : pyval) : list pyval :=
  match v with
  | PDict gd =>
      match lookup key gd with
      | Some x => match py_iter x with Ok xs => xs | Err _ => [] end
      | None => []
      end
  | _ => []
  end.

Definition iterable_or_absent (key : string) (gd : dict) : bool :=
  match lookup key gd with
  | None => true
  | Some x => match py_iter x with Ok _ => true | Err _ => false end
  end.

(** A group a pass gets through: a mapping whose [hosts] and [children],
    when it has them, can be iterated. *)
Definition group_iterable (v : pyval) : bool :=
  match v with
  | PDict gd => iterable_or_absent "hosts" gd && iterable_or_absent "children" gd
  | _ => false
  end.

(** The calls of one pass of [add_groups] over such groups. *)
Definition iter_pass (mode : string) (d : dict) : list sink_call :=
  flat_map (fun kv => AddGroup (PStr (fst kv))
                      :: map (Expected.member_call mode (PStr (fst kv)))
                           (iterated mode (snd kv)))
           (Expected.groups_of d).

End Frame.

(** ** Sample hosts *)

Module Samples.
Import Http.

(** The document of the spec's example. *)
Definition doc_hostvars : dict := [("h1", PDict [("a", PInt 1)])].

Definition doc_entries : dict :=
  [("_meta", PDict [("hostvars", PDict doc_hostvars)]);
   ("g1", PDict [("hosts", PList [PStr "h1"])]);
   ("g2", PDict [("children", PList [PStr "g1"])])].

Definition doc : pyval := PDict doc_entries.

(** A document with a group and no [_meta]. *)
Definition doc_without_meta : dict :=
  [("g1", PDict [("hosts", PList [PStr "h1"])])].

Definition ok_response (d : pyval) : response :=
  mkResponse 200 [("Content-Type", "application/json")] "" (Ok d).

(** A host with the url in the environment and basic authentication
    configured without credentials, a configuration that loads, a server
    that answers every request with [r], an inventory that accepts every
    call. *)
Definition serving (r : response) : host :=
  mkHost (fun v => if String.eqb v "HTTP_URL" then Some "https://example.org/inventory.json" else None)
         (Ok tt)
         (fun o => if String.eqb o "url" then Some "https://example.org/inventory.json"
                   else if String.eqb o "auth_method" then Some "basic" else None)
         (fun _ _ => Ok r)
         (fun _ _ => None)
         (fun _ => Err (ExternalError "lxml")).



(** A host whose configuration asks for an authentication the plugin does
    not know: loading the configuration refuses the value. *)
Definition digest_auth : host :=
  mkHost (fun _ => None)
         (Err (AnsibleOptionsError "Invalid value for configuration option auth_method"))
         (fun o => if String.eqb o "url" then Some "https://example.org/inventory.json"
                   else if String.eqb o "auth_method" then Some "digest" else None)
         (fun _ _ => Ok (ok_response doc))
         (fun _ _ => None)
         (fun _ => Err (ExternalError "lxml")).

(** A page that is not JSON. *)
Definition html_response : response :=
  mkResponse 200 [("Content-Type", "text/html")] "<html></html>" (Err (ExternalError "json")).

(** A 404 with a Content-Type header, and one without any header. *)
Definition not_found : response :=
  mkResponse 404 [("content-type", "text/html")] "" (Err (ExternalError "json")).
Definition bare_not_found : response :=
  mkResponse 404 [] "" (Err (ExternalError "json")).

(** The login page of a GitLab: where to post, and the token to post. *)
Definition login_page : tree :=
  fun q =>
    if String.eqb q xmeta then
      [[("property", "og:url"); ("content", "https://gitlab.example.org/users/sign_in")]]
    else if String.eqb q xinput then
      [[("name", "authenticity_token"); ("value", "t0k3n")]]
    else [].

(** A host set up for the GitLab login, all from the environment. *)
Definition gitlab_host : host :=
  mkHost (fun v =>
            if String.eqb v "HTTP_URL" then Some "https://pages.example.org/inventory.json"
            else if String.eqb v "HTTP_AUTH_METHOD" then Some "gitlab"
            else if String.eqb v "HTTP_USERNAME" then Some "alice"
            else if String.eqb v "HTTP_PASSWORD" then Some "secret"
            else None)
         (Ok tt)
         (fun _ => None)
         (fun _ _ => Ok (ok_response doc))
         (fun _ _ => None)
         (fun _ => Ok login_page).

(** A page without the tags the login needs. *)
Definition blank_page : tree := fun _ => [].

(** The same host, served a page the login cannot use. *)
Definition gitlab_blank_host : host :=
  mkHost (getenv gitlab_host) (Ok tt) (fun _ => None) (fun _ _ => Ok (ok_response doc))
         (fun _ _ => None) (fun _ => Ok blank_page).

(** A document whose first group gives its hosts as one string. *)
Definition doc_string_hosts : dict :=
  [("web", PDict [("hosts", PStr "é1")]);
   ("db", PDict [("hosts", PList [PStr "db1"])])].

End Samples.

(** * Properties of the filter *)

Section Flatten.
Import Dict2Ini.

Variable quote : bool.

(** The inner loop appends one record per option to what [ret] holds. *)
Lemma inner_loop_appends (s : string) (opts : dict) (ret : list ConfigRecord) :
  for_each (fun '(o, v) ret => Ok (ret ++ [mkRecord s o (quoted quote v)])%list) opts ret
  = Ok (ret ++ map (fun '(o, v) => mkRecord s o (quoted quote v)) opts)%list.
Proof.
  revert ret. induction opts as [|[o v] opts IH]; intros ret; simpl.
  - now rewrite app_nil_r.
  - rewrite IH, <- app_assoc. reflexivity.
Qed.

(** The outer loop appends the records of every section in turn. *)
Lemma outer_loop_appends (m : sections) (ret : list ConfigRecord) :
  for_each
    (fun '(section, elements) ret =>
       match py_items elements with
       | Err e => Err e
       | Ok options =>
           for_each
             (fun '(option, value) ret =>
                Ok (ret ++ [mkRecord section option (quoted quote value)])%list)
             options ret
       end)
    (map (fun '(s, opts) => (s, PDict opts)) m) ret
  = Ok (ret ++ flatten_spec m quote)%list.
Proof.
  revert ret. induction m as [|[s opts] m IH]; intros ret; simpl.
  - now rewrite app_nil_r.
  - rewrite inner_loop_appends, IH, <- app_assoc. reflexivity.
Qed.

Lemma dict2ini_mapping (m : sections) :
  dict2ini (mapping_of m) quote = Ok (flatten_spec m quote).
Proof.
  unfold dict2ini, mapping_of. simpl py_items. cbv beta iota.
  apply (outer_loop_appends m []).
Qed.

Lemma flatten_spec_length (m : sections) :
  length (flatten_spec m quote) = option_count m.
Proof.
  unfold flatten_spec, option_count.
  induction m as [|[s opts] m IH]; simpl; [reflexivity|].
  now rewrite length_app, length_map, IH.
Qed.

End Flatten.

(** Every mapping whose values are mappings is [mapping_of] its sections. *)
Lemma mapping_of_surjective (d : dict) :
  Forall (fun kv => exists opts, snd kv = PDict opts) d ->
  exists m, PDict d = Dict2Ini.mapping_of m.
Proof.
  induction 1 as [|[k v] d [opts Hv] _ [m IH]].
  - now exists [].
  - exists ((k, opts) :: m). simpl in Hv. subst v.
    unfold Dict2Ini.mapping_of in *. simpl. now inversion IH.
Qed.

(** C2: for a mapping of mappings, [dict2ini] returns a list with as many
    records as the sections have options in all; the list is the list of
    the (section, option, value) pairs of the input, in the input's
    iteration order (sections in order, the options of each in order),
    each pair turned into one record that carries its section, its option
    and its value (between double quotes for a string when [quote] is
    set), none merged, none dropped, none moved. *)
Theorem dict2ini_one_record_per_option :
  forall (m : Dict2Ini.sections) (quote : bool),
    exists recs,
      Dict2Ini.dict2ini (Dict2Ini.mapping_of m) quote = Ok recs
      /\ length recs = Dict2Ini.option_count m
      /\ recs
         = map (fun t =>
                  Dict2Ini.mkRecord (fst (fst t)) (snd (fst t))
                    (match snd t with
                     | PStr str => if quote then PStr (dquote ++ str ++ dquote)
                                   else PStr str
                     | v => v
                     end))
               (Dict2Ini.triples m).
Proof.
  intros m quote. exists (Dict2Ini.flatten_spec m quote).
  split; [apply dict2ini_mapping|].
  split; [apply flatten_spec_length|].
  unfold Dict2Ini.flatten_spec, Dict2Ini.triples.
  induction m as [|[s opts] m IH]; simpl; [reflexivity|].
  rewrite map_app, IH. f_equal.
  rewrite map_map. apply map_ext. intros [o v]. simpl.
  now destruct v.
Qed.

(** C3: the i-th record carries the section and option of the i-th pair of
    the input; its value is the input string between double quotes when
    the input value is a string and [quote] is set, and the input value
    itself when it is not a string or [quote] is unset. *)
Theorem dict2ini_quotes_strings_only :
  forall (m : Dict2Ini.sections) (quote : bool),
    exists recs,
      Dict2Ini.dict2ini (Dict2Ini.mapping_of m) quote = Ok recs
      /\ Forall2
           (fun t r =>
              let '(s, o, v) := t in
              Dict2Ini.section r = s /\ Dict2Ini.option r = o
              /\ (forall str, v = PStr str -> quote = true ->
                              Dict2Ini.value r = PStr (dquote ++ str ++ dquote))
              /\ (is_str v = false \/ quote = false -> Dict2Ini.value r = v))
           (Dict2Ini.triples m) recs.
Proof.
  intros m quote. exists (Dict2Ini.flatten_spec m quote).
  split; [apply dict2ini_mapping|].
  unfold Dict2Ini.triples, Dict2Ini.flatten_spec.
  induction m as [|[s opts] m IH]; simpl; [constructor|].
  apply Forall2_app; [|exact IH].
  clear IH. induction opts as [|[o v] opts IH]; simpl; constructor; [|exact IH].
  repeat split.
  - intros str -> ->. reflexivity.
  - intros [Hv | ->].
    + destruct v; try reflexivity; discriminate.
    + destruct v; reflexivity.
Qed.

(** * Properties of the inventory plugin *)

Section Monad.
Import Http.

Lemma bind_assoc {A B C : Type} (m : M A) (k : A -> M B) (k' : B -> M C) (s : state) :
  bind (bind m k) k' s = bind m (fun a => bind (k a) k') s.
Proof. unfold bind. destruct (m s) as [[a|e] s']; reflexivity. Qed.

Lemma bind_ext {A B : Type} (m : M A) (k k' : A -> M B) (s : state) :
  (forall a s', k a s' = k' a s') -> bind m k s = bind m k' s.
Proof. intros H. unfold bind. destruct (m s) as [[a|e] s']; auto. Qed.

Lemma bind_ok {A B : Type} (m : M A) (k : A -> M B) (s s' : state) (a : A) :
  m s = (Ok a, s') -> bind m k s = k a s'.
Proof. intros H. unfold bind. now rewrite H. Qed.

Lemma bind_err {A B : Type} (m : M A) (k : A -> M B) (s s' : state) (e : exn) :
  m s = (Err e, s') -> bind m k s = (Err e, s').
Proof. intros H. unfold bind. now rewrite H. Qed.

End Monad.

Ltac reassoc := repeat (rewrite bind_assoc; apply bind_ext; intros).

Section Phases.
Import Http Phases Expected.

Variable h : host.

Lemma resolve_and_fetch_phases (s : state) :
  resolve_and_fetch h s
  = bind (lift (read_config_data h)) (fun _ => bind (resolve h) (fun _ => fetch h)) s.
Proof.
  unfold resolve_and_fetch, resolve, fetch. apply bind_ext. intros _ s'.
  reassoc. reflexivity.
Qed.

Lemma parse_phases (s : state) :
  parse h s = bind (resolve_and_fetch h) (fun _ => populate h) s.
Proof. unfold parse, resolve_and_fetch, populate. reassoc. reflexivity. Qed.

Lemma resolve_init : resolve h (init h) = (Ok tt, resolved_state h).
Proof.
  unfold resolve, init, resolved_state, resolved.
  destruct (getenv h "HTTP_URL"), (getenv h "HTTP_AUTH_METHOD"),
    (getenv h "HTTP_USERNAME"), (getenv h "HTTP_PASSWORD"); reflexivity.
Qed.

(** A fresh instance gets to the fetch when the configuration loads, and
    ends with the loader's exception, untouched, when it does not. *)
Lemma fetch_init :
  resolve_and_fetch h (init h)
  = match read_config_data h with
    | Ok _ => fetch h (resolved_state h)
    | Err e => (Err e, init h)
    end.
Proof.
  rewrite resolve_and_fetch_phases.
  destruct (read_config_data h) as [[]|e]; [|reflexivity].
  cbn [lift]. unfold bind at 1, ret.
  now rewrite (bind_ok _ _ _ _ _ resolve_init).
Qed.

Lemma run_phases :
  run h
  = match read_config_data h with
    | Ok _ => bind (fetch h) (fun _ => populate h) (resolved_state h)
    | Err e => (Err e, init h)
    end.
Proof.
  unfold run. rewrite parse_phases. unfold bind at 1. rewrite fetch_init.
  now destruct (read_config_data h).
Qed.

End Phases.

Section Strings.
Import Http Expected.

Lemma prefix_app_iff (n hay : string) :
  String.prefix n hay = true <-> exists post, hay = n ++ post.
Proof.
  revert hay. induction n as [|a n IH]; intros hay.
  - split; [intros _; now exists hay | intros _; now destruct hay].
  - destruct hay as [|b hay]; simpl.
    + split; [discriminate | intros [post H]; discriminate].
    + destruct (ascii_dec a b) as [->|Hab].
      * rewrite IH. split; intros [post H]; exists post.
        -- now rewrite H.
        -- now inversion H.
      * split; [discriminate | intros [post H]; inversion H; congruence].
Qed.

(** [needle in hay] is the substring test. *)
Lemma contains_spec (n hay : string) :
  contains n hay = true <-> substring_of n hay.
Proof.
  unfold substring_of. induction hay as [|b hay IH].
  - cbn [contains]. rewrite orb_false_r, prefix_app_iff. split.
    + intros [post H]. now exists "", post.
    + intros [pre [post H]]. destruct pre; [now exists post|discriminate].
  - cbn [contains]. rewrite orb_true_iff, prefix_app_iff, IH. split.
    + intros [[post H] | [pre [post H]]].
      * now exists "", post.
      * exists (String b pre), post. simpl. now rewrite H.
    + intros [pre [post H]]. destruct pre as [|c pre].
      * left. now exists post.
      * right. exists pre, post. simpl in H. now inversion H.
Qed.

Lemma contains_false (n hay : string) :
  ~ substring_of n hay -> contains n hay = false.
Proof.
  intros H. destruct (contains n hay) eqn:E; [|reflexivity].
  now apply contains_spec in E.
Qed.

(** The message of a bad status spells the status code out. *)
Lemma bad_status_msg_mentions (code : Z) :
  substring_of (str_of_int code) (bad_status_msg code).
Proof.
  exists (nl ++ indent16 ++ "Server returned status code "),
    ("." ++ nl ++ indent16 ++ "Maybe server is in Maintenance or unreachable..." ++
     nl ++ indent12).
  reflexivity.
Qed.

End Strings.

Section Validation.
Import Http Phases Expected.

Variable h : host.

Lemma valid_bad_status (r : response) (ct : string) (s : state) :
  header "Content-Type" r = Ok ct -> (status_code r >= 300)%Z ->
  is_valid_content r s = (Err (AnsibleError (bad_status_msg (status_code r))), s).
Proof.
  intros Hct Hst. unfold is_valid_content. rewrite Hct.
  destruct (Z.geb_spec (status_code r) 300); [reflexivity | lia].
Qed.

Lemma valid_not_json (r : response) (ct : string) (s : state) :
  header "Content-Type" r = Ok ct -> (status_code r < 300)%Z ->
  contains "json" ct = false ->
  is_valid_content r s = (Err (AnsibleParserError (not_json_msg (url (self s)))), s).
Proof.
  intros Hct Hst Hc. unfold is_valid_content. rewrite Hct.
  destruct (Z.geb_spec (status_code r) 300); [lia|].
  cbv [bind ret raise lift gets]. rewrite Hc. reflexivity.
Qed.

Lemma valid_json (r : response) (ct : string) (s : state) :
  header "Content-Type" r = Ok ct -> (status_code r < 300)%Z ->
  contains "json" ct = true ->
  is_valid_content r s = (Ok true, s).
Proof.
  intros Hct Hst Hc. unfold is_valid_content. rewrite Hct.
  destruct (Z.geb_spec (status_code r) 300); [lia|].
  cbv [bind ret raise lift gets]. rewrite Hc. reflexivity.
Qed.

(** [get_generic_page] sends one request and goes on with its answer. *)
Lemma generic_page_request (s : state) :
  get_generic_page h s
  = bind (request_ h (generic_request (self s)))
         (fun r => valid <- is_valid_content r ;; if valid then decode r else ret PNone) s.
Proof.
  unfold get_generic_page, generic_request, bind at 1 2 3, gets. simpl.
  destruct (username (self s)), (password (self s)); reflexivity.
Qed.

Lemma generic_page_answer (r : response) (s : state) :
  send h (trace s) (generic_request (self s)) = Ok r ->
  get_generic_page h s
  = bind (is_valid_content r) (fun valid => if valid then decode r else ret PNone)
         (log (Request (generic_request (self s))) s).
Proof.
  intros Hr. rewrite generic_page_request. unfold bind at 1, request_. now rewrite Hr.
Qed.

End Validation.

Section Responses.
Import Http Phases Expected Samples.

(** With a Content-Type header on the response, a status of 300 or more
    is an [AnsibleError] that spells the status out, raised before the
    body is decoded: [get_generic_page] leaves only its request in the
    trace. *)
Lemma bad_status_with_content_type :
  forall (h : host) (r : response) (ct : string) (s : state),
    send h (trace s) (generic_request (self s)) = Ok r ->
    header "Content-Type" r = Ok ct ->
    (status_code r >= 300)%Z ->
    get_generic_page h s
    = (Err (AnsibleError (bad_status_msg (status_code r))),
       log (Request (generic_request (self s))) s)
    /\ substring_of (str_of_int (status_code r)) (bad_status_msg (status_code r)).
Proof.
  intros h r ct s Hr Hct Hst. split; [|apply bad_status_msg_mentions].
  rewrite (generic_page_answer h r s Hr).
  now rewrite (bind_err _ _ _ _ _ (valid_bad_status r ct _ Hct Hst)).
Qed.

(** C4: at a 404 response that carries no Content-Type header, validation
    does not reach the status test: the trace line that prints the header
    raises the [KeyError] of the lookup, which is not an Ansible error,
    and [parse] ends with it. *)
Theorem bad_status_without_content_type :
  (status_code bare_not_found >= 300)%Z
  /\ (forall s, is_valid_content bare_not_found s
                = (Err (KeyError (PStr "content-type")), s))
  /\ fst (run (serving bare_not_found)) = Err (KeyError (PStr "content-type"))
  /\ is_ansible_error (KeyError (PStr "content-type")) = false.
Proof.
  split; [vm_compute; discriminate|].
  split; [reflexivity|].
  split; reflexivity.
Qed.

(** C5: for a response with a status below 300 and a Content-Type header,
    validation raises [AnsibleParserError] when the header does not have
    "json" as a substring, and [get_generic_page] ends with that error
    once the request is sent; when the header has it, validation returns
    [True] and [get_generic_page] decodes the body and returns what
    [r.json()] gives. *)
Theorem content_type_decides_validation :
  forall (h : host) (r : response) (ct : string) (s : state),
    send h (trace s) (generic_request (self s)) = Ok r ->
    (status_code r < 300)%Z ->
    header "Content-Type" r = Ok ct ->
    (~ substring_of "json" ct ->
       is_valid_content r s
       = (Err (AnsibleParserError (not_json_msg (url (self s)))), s)
       /\ get_generic_page h s
          = (Err (AnsibleParserError (not_json_msg (url (self s)))),
             log (Request (generic_request (self s))) s))
    /\ (substring_of "json" ct ->
       is_valid_content r s = (Ok true, s)
       /\ get_generic_page h s
          = (json r, log (JsonDecode r) (log (Request (generic_request (self s))) s))).
Proof.
  intros h r ct s Hr Hst Hct. split; intros Hsub.
  - apply contains_false in Hsub. split.
    + now apply valid_not_json with ct.
    + rewrite (generic_page_answer h r s Hr).
      now rewrite (bind_err _ _ _ _ _ (valid_not_json r ct _ Hct Hst Hsub)).
  - apply contains_spec in Hsub. split.
    + now apply valid_json with ct.
    + rewrite (generic_page_answer h r s Hr).
      now rewrite (bind_ok _ _ _ _ _ (valid_json r ct _ Hct Hst Hsub)).
Qed.

Lemma content_type_decides_validation_witness :
  is_valid_content html_response (init (serving html_response))
  = (Err (AnsibleParserError
            (not_json_msg (Some "https://example.org/inventory.json"))),
     init (serving html_response))
  /\ fst (get_generic_page (serving (ok_response doc)) (init (serving (ok_response doc))))
     = Ok doc.
Proof.
  split.
  - apply (content_type_decides_validation (serving html_response) html_response
             "text/html" (init (serving html_response)));
      [reflexivity | reflexivity | reflexivity |].
    intros [pre [post H]].
    apply (f_equal (contains "json")) in H.
    rewrite (proj2 (contains_spec "json" (pre ++ "json" ++ post))) in H
      by (now exists pre, post).
    vm_compute in H. discriminate H.
  - pose proof (content_type_decides_validation (serving (ok_response doc))
                  (ok_response doc) "application/json"
                  (init (serving (ok_response doc)))
                  eq_refl eq_refl eq_refl) as [_ H].
    destruct H as [_ H]; [now exists "application/", ""|].
    now rewrite H.
Defined.



(** C8, as the claim has it, fails where the configuration is refused:
    with "digest" configured the loader raises, and [parse] ends with its
    exception, not with the error that no data was received. *)
Lemma unknown_auth_method_counterexample :
  resolved digest_auth "HTTP_URL" "url" = Some "https://example.org/inventory.json"
  /\ resolved digest_auth "HTTP_AUTH_METHOD" "auth_method" = Some "digest"
  /\ generic_auth (Some "digest") = false /\ gitlab_auth (Some "digest") = false
  /\ fst (run digest_auth) <> Err (AnsibleParserError no_data_msg).
Proof. repeat split. vm_compute. discriminate. Qed.

(** C8, amended: with a url, an [auth_method] other than [None], "None",
    "basic" and "gitlab" matches neither fetch branch; [parse] sends no
    request and [self.data] stays [None]; [parse] ends with the exception
    of [_read_config_data] when that refuses the configuration, and
    otherwise with the [AnsibleParserError] that says no data was
    received. *)
Theorem unknown_auth_method_fetches_nothing :
  forall (h : host) (u a : string),
    resolved h "HTTP_URL" "url" = Some u ->
    resolved h "HTTP_AUTH_METHOD" "auth_method" = Some a ->
    a <> "None" -> a <> "basic" -> a <> "gitlab" ->
    generic_auth (Some a) = false /\ gitlab_auth (Some a) = false
    /\ exists e s,
         run h = (Err e, s)
         /\ requests (trace s) = [] /\ trace s = []
         /\ data (self s) = PNone
         /\ match read_config_data h with
            | Err e' => e = e'
            | Ok _ => e = AnsibleParserError no_data_msg
            end.
Proof.
  intros h u a Hu Ha Hn Hb Hg.
  apply String.eqb_neq in Hn, Hb, Hg.
  assert (G : generic_auth (Some a) = false) by (simpl; now rewrite Hn, Hb).
  assert (L : gitlab_auth (Some a) = false) by (simpl; now rewrite Hg).
  split; [exact G|]. split; [exact L|].
  rewrite run_phases.
  destruct (read_config_data h) as [[]|e0].
  - exists (AnsibleParserError no_data_msg), (resolved_state h).
    split; [|now repeat split].
    assert (F : fetch h (resolved_state h) = (Ok tt, resolved_state h)).
    { unfold fetch. cbv [bind gets resolved_state self url auth_method].
      rewrite Hu, Ha. cbv [is_none ret]. rewrite G.
      cbv [when ret self auth_method]. rewrite L. reflexivity. }
    rewrite (bind_ok _ _ _ _ _ F). reflexivity.
  - exists e0, (init h). now repeat split.
Qed.

Lemma unknown_auth_method_fetches_nothing_witness :
  exists e s,
    run digest_auth = (Err e, s)
    /\ read_config_data digest_auth = Err e
    /\ requests (trace s) = [] /\ data (self s) = PNone.
Proof.
  destruct (unknown_auth_method_fetches_nothing digest_auth
              "https://example.org/inventory.json" "digest" eq_refl eq_refl)
    as (_ & _ & e & s & R & Q & _ & D & E); try discriminate.
  exists e, s. simpl in E. subst e. now repeat split.
Defined.

End Responses.

Section Emits.
Import Http Phases Expected.

Lemma emitsL_weaken {A : Type} (L L' : list event -> Prop) (m : M A) :
  (forall l, L l -> L' l) -> emitsL L m -> emitsL L' m.
Proof. intros HL Hm s. destruct (Hm s) as [l [E Hl]]. exists l. auto. Qed.

Lemma emits_weaken {A : Type} (P Q : event -> bool) (m : M A) :
  (forall ev, P ev = true -> Q ev = true) -> emits P m -> emits Q m.
Proof.
  intros HPQ. apply emitsL_weaken. intros l Hl.
  rewrite forallb_forall in *. auto.
Qed.

Lemma emitsL_silent {A : Type} (L : list event -> Prop) (m : M A) :
  L [] -> (forall s, trace (snd (m s)) = trace s) -> emitsL L m.
Proof. intros H0 Hm s. exists []. now rewrite app_nil_r, Hm. Qed.

(** A sequence emits the events of its first part, then those of its
    second; the second part may not run at all. *)
Lemma emitsL_bind {A B : Type} (L1 L2 : list event -> Prop) (m : M A) (k : A -> M B) :
  emitsL L1 m -> (forall a, emitsL L2 (k a)) -> L2 [] ->
  emitsL (cat L1 L2) (bind m k).
Proof.
  intros Hm Hk H0 s. unfold bind.
  destruct (Hm s) as [l1 [E1 H1]]. destruct (m s) as [[a|e] s']; simpl in E1.
  - destruct (Hk a s') as [l2 [E2 H2]]. exists (l1 ++ l2)%list.
    rewrite E2, E1, app_assoc. split; [reflexivity|]. now exists l1, l2.
  - exists l1. simpl. split; [exact E1|]. exists l1, []. now rewrite app_nil_r.
Qed.

Variable P : event -> bool.

Lemma emits_ret {A : Type} (a : A) : emits P (ret a).
Proof. now apply emitsL_silent. Qed.

Lemma emits_raise {A : Type} (e : exn) : emits P (@raise A e).
Proof. now apply emitsL_silent. Qed.

Lemma emits_lift {A : Type} (r : result A) : emits P (lift r).
Proof. destruct r; [apply emits_ret | apply emits_raise]. Qed.

Lemma emits_gets {A : Type} (f : plugin -> A) : emits P (gets f).
Proof. now apply emitsL_silent. Qed.

Lemma emits_modify (f : plugin -> plugin) : emits P (modify f).
Proof. now apply emitsL_silent. Qed.

Lemma emits_bind {A B : Type} (m : M A) (k : A -> M B) :
  emits P m -> (forall a, emits P (k a)) -> emits P (bind m k).
Proof.
  intros Hm Hk.
  apply emitsL_weaken with (L := cat (fun l => forallb P l = true)
                                     (fun l => forallb P l = true)).
  - intros l [l1 [l2 [-> [H1 H2]]]]. now rewrite forallb_app, H1, H2.
  - now apply emitsL_bind.
Qed.

Lemma emits_one {A : Type} (ev : event) (m : M A) :
  P ev = true -> (forall s, snd (m s) = log ev s) -> emits P m.
Proof.
  intros Hev Hm s. exists [ev]. rewrite Hm. simpl. now rewrite Hev.
Qed.

Lemma emits_request (h : host) (req : request) :
  P (Request req) = true -> emits P (request_ h req).
Proof. intros H. now apply emits_one with (Request req). Qed.

Lemma emits_decode (r : response) :
  P (JsonDecode r) = true -> emits P (decode r).
Proof. intros H. now apply emits_one with (JsonDecode r). Qed.

Lemma emits_call (h : host) (c : sink_call) :
  P (Sink c) = true -> emits P (call h c).
Proof. intros H. now apply emits_one with (Sink c). Qed.

Lemma emits_when (b : bool) (m : M unit) : emits P m -> emits P (when b m).
Proof. intros H. destruct b; [exact H | apply emits_ret]. Qed.

Lemma emits_for_m {A : Type} (l : list A) (body : A -> M unit) :
  (forall x, emits P (body x)) -> emits P (for_m l body).
Proof.
  intros H. induction l as [|x l IH]; simpl.
  - apply emits_ret.
  - apply emits_bind; auto.
Qed.

End Emits.

(** Splits a goal [emits P m] along the shape of [m]; what is left are the
    events [m] emits, to be checked against [P]. *)
Ltac emit :=
  repeat (intros;
    lazymatch goal with
    | |- Expected.emits _ (Http.bind _ _) => apply emits_bind
    | |- Expected.emits _ (Http.ret _) => apply emits_ret
    | |- Expected.emits _ (Http.raise _) => apply emits_raise
    | |- Expected.emits _ (Http.lift _) => apply emits_lift
    | |- Expected.emits _ (Http.gets _) => apply emits_gets
    | |- Expected.emits _ (Http.modify _) => apply emits_modify
    | |- Expected.emits _ (Http.when _ _) => apply emits_when
    | |- Expected.emits _ (Http.for_m _ _) => apply emits_for_m
    | |- Expected.emits _ (Http.request_ _ _) => apply emits_request
    | |- Expected.emits _ (Http.decode _) => apply emits_decode
    | |- Expected.emits _ (Http.call _ _) => apply emits_call
    | |- Expected.emits _ (if ?b then _ else _) => destruct b eqn:?
    | |- Expected.emits _ (match ?x with _ => _ end) => destruct x eqn:?
    end).

Section Traces.
Import Http Phases Expected.

Variable h : host.

Lemma valid_emits (P : event -> bool) (r : response) : emits P (is_valid_content r).
Proof. unfold is_valid_content. emit. Qed.

Lemma generic_page_emits (P : event -> bool) :
  (forall ev, is_sink ev = false -> P ev = true) -> emits P (get_generic_page h).
Proof.
  intros HP. unfold get_generic_page. emit; try apply valid_emits; now apply HP.
Qed.

Lemma gitlab_page_emits (P : event -> bool) :
  (forall ev, is_sink ev = false -> P ev = true) -> emits P (get_gitlab_page h).
Proof.
  intros HP. unfold get_gitlab_page. emit; try apply valid_emits; now apply HP.
Qed.

Lemma resolve_emits (P : event -> bool) : emits P (resolve h).
Proof.
  unfold resolve, set_url, set_auth_method, set_username, set_password. emit.
Qed.

Lemma fetch_emits (P : event -> bool) :
  (forall ev, is_sink ev = false -> P ev = true) -> emits P (fetch h).
Proof.
  intros HP. unfold fetch, set_data.
  emit; solve [now apply generic_page_emits | now apply gitlab_page_emits].
Qed.

Lemma add_hostvars_emits (d : pyval) :
  emits (pass_event is_hostvars) (add_hostvars h d).
Proof. unfold add_hostvars. emit. reflexivity. Qed.

Lemma eq_str_false_neq (g : pyval) : eq_str g "_meta" = false -> g <> PStr "_meta".
Proof. intros H ->. discriminate H. Qed.

(** A pass of [add_groups] makes calls of its mode only, and none on
    [_meta]. *)
Lemma add_groups_emits (d : pyval) (mode : string) :
  emits (fun ev => pass_event (mode_op mode) ev && negb (on_meta ev))
        (add_groups h d mode).
Proof.
  unfold add_groups, has_mode, members. emit;
    unfold mode_op; simpl;
    repeat match goal with H : _ = _ |- _ => rewrite H end;
    repeat match goal with
           | |- context [String.eqb ?a ?b] => destruct (String.eqb a b)
           end;
    reflexivity.
Qed.

End Traces.

Section Order.
Import Http Phases Expected.

Lemma sink_calls_app (l1 l2 : list event) :
  sink_calls (l1 ++ l2) = (sink_calls l1 ++ sink_calls l2)%list.
Proof. apply flat_map_app. Qed.

Lemma sink_calls_silent (l : list event) :
  forallb (fun ev => negb (is_sink ev)) l = true -> sink_calls l = [].
Proof.
  induction l as [|ev l IH]; simpl; [reflexivity|].
  destruct ev; simpl; try exact IH. discriminate.
Qed.

Lemma sink_calls_pass (p : sink_call -> bool) (l : list event) :
  forallb (pass_event p) l = true -> forallb p (sink_calls l) = true.
Proof.
  induction l as [|ev l IH]; simpl; [reflexivity|].
  destruct ev; simpl; try discriminate.
  intros H. apply andb_true_iff in H as [H1 H2]. now rewrite H1, IH.
Qed.

Lemma sink_calls_map (l : list sink_call) : sink_calls (map Sink l) = l.
Proof. induction l as [|c l IH]; simpl; [reflexivity | now rewrite IH]. Qed.

(** When no call of the first run satisfies [Q] and no call of the second
    satisfies [P], every [P] comes before every [Q]. *)
Lemma precedes_app (P Q : sink_call -> bool) (l1 l2 : list sink_call) :
  forallb (fun c => negb (Q c)) l1 = true ->
  forallb (fun c => negb (P c)) l2 = true ->
  precedes P Q (l1 ++ l2).
Proof.
  intros H1 H2 i j x y Hi Hj Px Qy.
  rewrite forallb_forall in H1, H2.
  assert (Li : (i < length l1)%nat).
  { destruct (Nat.lt_ge_cases i (length l1)) as [L|L]; [exact L|].
    rewrite nth_error_app2 in Hi by exact L.
    apply nth_error_In, H2 in Hi. now rewrite Px in Hi. }
  assert (Lj : (length l1 <= j)%nat).
  { destruct (Nat.lt_ge_cases j (length l1)) as [L|L]; [|exact L].
    rewrite nth_error_app1 in Hj by exact L.
    apply nth_error_In, H1 in Hj. now rewrite Qy in Hj. }
  lia.
Qed.

Lemma forallb_impl {A : Type} (p q : A -> bool) (l : list A) :
  (forall x, p x = true -> q x = true) -> forallb p l = true -> forallb q l = true.
Proof. intros H. rewrite !forallb_forall. auto. Qed.

Variable h : host.

(** The three passes of [populate], one after the other. *)
Lemma populate_passes :
  emitsL (cat (fun l => forallb (pass_event is_hostvars) l = true)
           (cat (fun l => forallb (pass_event hosts_pass_op) l = true)
                (fun l => forallb (pass_event children_pass_op) l = true)))
         (populate h).
Proof.
  intros s. unfold populate, bind at 1, gets. simpl.
  destruct (is_py_none (data (self s))).
  - exists []. simpl. rewrite app_nil_r. split; [reflexivity|].
    exists [], []. repeat split. now exists [], [].
  - set (d := data (self s)).
    refine (emitsL_bind _ _ _ _ (add_hostvars_emits h d) _ _ s);
      [|now exists [], []].
    intros _. apply emitsL_bind; [| | reflexivity].
    + apply emits_weaken with (2 := add_groups_emits h d "hosts").
      intros [r|r|c]; simpl; try discriminate.
      destruct c; simpl; try reflexivity; discriminate.
    + intros _. apply emits_weaken with (2 := add_groups_emits h d "children").
      intros [r|r|c]; simpl; try discriminate.
      destruct c; simpl; try reflexivity; discriminate.
Qed.

(** The inventory calls of a run, cut into the three passes. *)
Lemma run_passes :
  exists l1 l2 l3,
    sink_calls (trace (snd (run h))) = (l1 ++ l2 ++ l3)%list
    /\ forallb is_hostvars l1 = true
    /\ forallb hosts_pass_op l2 = true
    /\ forallb children_pass_op l3 = true.
Proof.
  rewrite run_phases.
  destruct (read_config_data h) as [[]|e0]; [|now exists [], [], []].
  assert (H : emitsL
                (cat (fun l => forallb (fun ev => negb (is_sink ev)) l = true)
                   (cat (fun l => forallb (pass_event is_hostvars) l = true)
                      (cat (fun l => forallb (pass_event hosts_pass_op) l = true)
                           (fun l => forallb (pass_event children_pass_op) l = true))))
                (bind (fetch h) (fun _ => populate h))).
  { apply emitsL_bind.
    - apply (fetch_emits h (fun ev => negb (is_sink ev))).
      intros ev H. now rewrite H.
    - intros _. apply populate_passes.
    - exists [], []. repeat split. now exists [], []. }
  destruct (H (resolved_state h))
    as (l & E & l0 & lp & -> & H0 & l1 & lq & -> & H1 & l2 & l3 & -> & H2 & H3).
  rewrite E. simpl trace. simpl app.
  exists (sink_calls l1), (sink_calls l2), (sink_calls l3).
  rewrite !sink_calls_app, (sink_calls_silent l0 H0). simpl.
  auto using sink_calls_pass.
Qed.

(** No inventory call of a run is made on the group [_meta]. *)
Lemma run_avoids_meta :
  forallb (fun ev => negb (on_meta ev)) (trace (snd (run h))) = true.
Proof.
  rewrite run_phases.
  destruct (read_config_data h) as [[]|e0]; [|reflexivity].
  assert (E : emits (fun ev => negb (on_meta ev)) (bind (fetch h) (fun _ => populate h))).
  { apply emits_bind.
    - apply fetch_emits. now intros [r|r|c].
    - intros _. unfold populate. emit; intros.
      + refine (emits_weaken _ _ _ _ (add_hostvars_emits h _)).
        intros [r|r|[hs v|g|x g|g c]]; simpl; congruence.
      + refine (emits_weaken _ _ _ _ (add_groups_emits h _ _)).
        intros ev H. now apply andb_true_iff in H.
      + refine (emits_weaken _ _ _ _ (add_groups_emits h _ _)).
        intros ev H. now apply andb_true_iff in H. }
  destruct (E (resolved_state h)) as [l [-> Hl]]. exact Hl.
Qed.

End Order.

Section Exact.
Import Http Phases Expected.

Lemma extend_nil (s : state) : extend s [] = s.
Proof. destruct s. unfold extend. simpl. now rewrite app_nil_r. Qed.

Lemma extend_extend (s : state) (l1 l2 : list event) :
  extend (extend s l1) l2 = extend s (l1 ++ l2).
Proof. unfold extend. simpl. now rewrite app_assoc. Qed.

Lemma mem_keys (k : string) (d : dict) :
  mem k (keys d) = match lookup k d with Some _ => true | None => false end.
Proof.
  induction d as [|[k' v] d IH]; simpl; [reflexivity|].
  destruct (String.eqb k k'); [reflexivity | exact IH].
Qed.

Lemma lookup_distinct (d : dict) (k : string) (v : pyval) :
  distinct (keys d) = true -> In (k, v) d -> lookup k d = Some v.
Proof.
  induction d as [|[k' v'] d IH]; simpl; [contradiction|].
  intros Hd [E|Hin].
  - inversion E. now rewrite String.eqb_refl.
  - apply andb_true_iff in Hd as [Hk Hd].
    destruct (String.eqb_spec k k') as [->|_]; [|now apply IH].
    rewrite mem_keys, (IH Hd Hin) in Hk. discriminate Hk.
Qed.

Lemma getitem_dict (d : dict) (k : string) (v : pyval) :
  lookup k d = Some v -> py_getitem (PDict d) (PStr k) = Ok v.
Proof. intros H. simpl. now rewrite H. Qed.

Lemma bind_lift_ok {A B : Type} (a : A) (k : A -> M B) (s : state) :
  bind (lift (Ok a)) k s = k a s.
Proof. reflexivity. Qed.

Variable h : host.
Hypothesis accepts : forall t c, sink h t c = None.

Lemma call_accepted (c : sink_call) (s : state) :
  call h c s = (Ok tt, extend s [Sink c]).
Proof. unfold call. now rewrite accepts. Qed.

Lemma for_m_calls {A : Type} (f : A -> sink_call) (l : list A) (s : state) :
  for_m l (fun x => call h (f x)) s = (Ok tt, extend s (map (fun x => Sink (f x)) l)).
Proof.
  revert s. induction l as [|x l IH]; intros s; simpl.
  - now rewrite extend_nil.
  - rewrite (bind_ok _ _ _ _ _ (call_accepted (f x) s)), IH, extend_extend.
    reflexivity.
Qed.

Lemma hostvars_loop (hv l : dict) (s : state) :
  (forall k v, In (k, v) l -> lookup k hv = Some v) ->
  for_m (map PStr (keys l))
        (fun host =>
           _ <- lift (py_getitem (PDict hv) host) ;;
           vars <- lift (py_getitem (PDict hv) host) ;;
           call h (PopulateHostVars [host] vars)) s
  = (Ok tt, extend s (map Sink (hostvars_pass l))).
Proof.
  revert s. induction l as [|[k v] l IH]; intros s Hl.
  - simpl. now rewrite extend_nil.
  - cbn [keys map fst snd for_m hostvars_pass].
    rewrite (getitem_dict hv k v) by (apply Hl; now left).
    rewrite bind_assoc, bind_lift_ok, bind_assoc, bind_lift_ok.
    rewrite (bind_ok _ _ _ _ _ (call_accepted _ s)).
    rewrite IH, extend_extend by (intros; apply Hl; now right).
    reflexivity.
Qed.

Lemma add_hostvars_exact (d hv : dict) (s : state) :
  hostvars_of d = Some hv -> distinct (keys hv) = true ->
  add_hostvars h (PDict d) s = (Ok tt, extend s (map Sink (hostvars_pass hv))).
Proof.
  unfold hostvars_of, add_hostvars. intros Hhv Hd.
  destruct (lookup "_meta" d) as [[| | | | | |m]|] eqn:Em; try discriminate.
  destruct (lookup "hostvars" m) as [[| | | | | |hv']|] eqn:Eh; try discriminate.
  inversion Hhv. subst hv'.
  rewrite (getitem_dict d "_meta" _ Em), bind_lift_ok.
  rewrite (getitem_dict m "hostvars" _ Eh), bind_lift_ok.
  simpl py_iter. rewrite bind_lift_ok.
  apply hostvars_loop. intros k v. now apply lookup_distinct.
Qed.

Lemma has_mode_dict (d gd : dict) (g key : string) (s : state) :
  lookup g d = Some (PDict gd) ->
  has_mode (PDict d) (PStr g) key s = (Ok (mem key (keys gd)), s).
Proof.
  intros Hg. unfold has_mode. now rewrite (getitem_dict d g _ Hg), bind_lift_ok.
Qed.

Lemma members_list (d gd : dict) (g key : string) (l : list pyval) (s : state) :
  lookup g d = Some (PDict gd) -> lookup key gd = Some (PList l) ->
  members (PDict d) (PStr g) key s = (Ok l, s).
Proof.
  intros Hg Hk. unfold members.
  rewrite (getitem_dict d g _ Hg), bind_lift_ok.
  now rewrite (getitem_dict gd key _ Hk), bind_lift_ok.
Qed.

(** The members a pass finds under [key] are each given their call. *)
Lemma members_pass (d gd : dict) (g key : string) (f : pyval -> sink_call) (s : state) :
  lookup g d = Some (PDict gd) -> list_or_absent key gd = true ->
  (b <- has_mode (PDict d) (PStr g) key ;;
   when b (xs <- members (PDict d) (PStr g) key ;;
           for_m xs (fun x => call h (f x)))) s
  = (Ok tt, extend s (map (fun x => Sink (f x)) (listed key (PDict gd)))).
Proof.
  intros Hg Hk. rewrite (bind_ok _ _ _ _ _ (has_mode_dict d gd g key s Hg)).
  rewrite mem_keys. unfold list_or_absent in Hk. unfold listed.
  destruct (lookup key gd) as [[| | | | |l|]|] eqn:E; try discriminate; simpl.
  - rewrite (bind_ok _ _ _ _ _ (members_list d gd g key l s Hg E)).
    apply for_m_calls.
  - now rewrite extend_nil.
Qed.

Lemma groups_loop (d l : dict) (mode : string) (s : state) :
  mode = "hosts" \/ mode = "children" ->
  (forall g v, In (g, v) l ->
     lookup g d = Some v /\ (String.eqb g "_meta" || group_ok v) = true) ->
  for_m (map PStr (keys l))
    (fun group =>
       if eq_str group "_meta" then ret tt
       else
         call h (AddGroup group) ;;
         (if String.eqb mode "hosts" then
            b <- has_mode (PDict d) group mode ;;
            when b (hosts <- members (PDict d) group "hosts" ;;
                    for_m hosts (fun host => call h (AddHost host group)))
          else ret tt) ;;
         (if String.eqb mode "children" then
            b <- has_mode (PDict d) group mode ;;
            when b (children <- members (PDict d) group "children" ;;
                    for_m children (fun child => call h (AddChild group child)))
          else ret tt)) s
  = (Ok tt, extend s (map Sink (group_pass mode l))).
Proof.
  intros Hmode. revert s. induction l as [|[g v] l IH]; intros s Hl.
  - simpl. now rewrite extend_nil.
  - destruct (Hl g v (or_introl eq_refl)) as [Hg Hv].
    assert (Hl' : forall g v, In (g, v) l ->
              lookup g d = Some v /\ (String.eqb g "_meta" || group_ok v) = true)
      by (intros; apply Hl; now right).
    unfold group_pass, groups_of.
    cbn [keys map fst snd for_m eq_str filter].
    destruct (String.eqb g "_meta") eqn:Em; cbn [negb flat_map].
    + rewrite (bind_ok _ _ _ _ _ (eq_refl : ret tt s = (Ok tt, s))).
      apply IH, Hl'.
    + simpl in Hv. destruct v as [| | | | | |gd]; try discriminate.
      apply andb_true_iff in Hv as [Hh Hc].
      rewrite bind_assoc, (bind_ok _ _ _ _ _ (call_accepted _ s)).
      rewrite map_app, <- extend_extend.
      destruct Hmode as [-> | ->]; cbn [String.eqb Ascii.eqb Bool.eqb].
      * rewrite bind_assoc.
        rewrite (bind_ok _ _ _ _ _ (members_pass d gd g "hosts"
                   (fun x => AddHost x (PStr g)) _ Hg Hh)).
        rewrite (bind_ok _ _ _ _ _ (eq_refl : ret tt _ = (Ok tt, _))).
        refine (eq_trans (IH _ Hl') _).
        cbn [map fst snd]. rewrite !extend_extend, map_map. reflexivity.
      * rewrite bind_assoc, (bind_ok _ _ _ _ _ (eq_refl : ret tt _ = (Ok tt, _))).
        rewrite (bind_ok _ _ _ _ _ (members_pass d gd g "children"
                   (fun x => AddChild (PStr g) x) _ Hg Hc)).
        refine (eq_trans (IH _ Hl') _).
        cbn [map fst snd]. rewrite !extend_extend, map_map. reflexivity.
Qed.

Lemma add_groups_exact (d : dict) (mode : string) (s : state) :
  mode = "hosts" \/ mode = "children" -> well_formed d = true ->
  add_groups h (PDict d) mode s = (Ok tt, extend s (map Sink (group_pass mode d))).
Proof.
  intros Hmode Hwf. unfold well_formed in Hwf.
  apply andb_true_iff in Hwf as [Hwf Hg]. apply andb_true_iff in Hwf as [Hd _].
  unfold add_groups. simpl py_iter. rewrite bind_lift_ok.
  apply groups_loop; [exact Hmode|].
  intros g v Hin. split; [now apply lookup_distinct|].
  rewrite forallb_forall in Hg. apply (Hg (g, v) Hin).
Qed.

Lemma populate_exact (d hv : dict) (s : state) :
  data (self s) = PDict d -> well_formed d = true -> hostvars_of d = Some hv ->
  populate h s
  = (Ok tt, extend s (map Sink (hostvars_pass hv ++ hosts_pass d ++ children_pass d))).
Proof.
  intros Hd Hwf Hhv. unfold populate, bind at 1, gets. simpl. rewrite Hd. simpl.
  assert (Hdist : distinct (keys hv) = true).
  { unfold well_formed in Hwf. rewrite Hhv in Hwf.
    apply andb_true_iff in Hwf as [Hwf _]. now apply andb_true_iff in Hwf. }
  rewrite (bind_ok _ _ _ _ _ (add_hostvars_exact d hv s Hhv Hdist)).
  rewrite (bind_ok _ _ _ _ _ (add_groups_exact d "hosts" _ (or_introl eq_refl) Hwf)).
  rewrite (add_groups_exact d "children" _ (or_intror eq_refl) Hwf).
  rewrite !extend_extend, !map_app. reflexivity.
Qed.

End Exact.

Section Runs.
Import Http Phases Expected.

Variable h : host.

(** Fetching makes no inventory call. *)
Lemma fetched_silent (r : result unit) (s1 : state) :
  resolve_and_fetch h (init h) = (r, s1) -> sink_calls (trace s1) = [].
Proof.
  rewrite fetch_init.
  destruct (read_config_data h) as [[]|e0]; intros H; [|now inversion H].
  destruct (fetch_emits h (fun ev => negb (is_sink ev))
              (fun ev E => eq_trans (f_equal negb E) eq_refl) (resolved_state h))
    as [l [E Hl]].
  rewrite H in E. simpl in E. rewrite E. now apply sink_calls_silent.
Qed.

Lemma run_populate (s1 : state) :
  resolve_and_fetch h (init h) = (Ok tt, s1) -> run h = populate h s1.
Proof. intros H. unfold run. now rewrite parse_phases, (bind_ok _ _ _ _ _ H). Qed.

Lemma run_exact (s1 : state) (d hv : dict) :
  resolve_and_fetch h (init h) = (Ok tt, s1) ->
  data (self s1) = PDict d -> well_formed d = true -> hostvars_of d = Some hv ->
  (forall t c, sink h t c = None) ->
  run h = (Ok tt, extend s1 (map Sink (hostvars_pass hv ++ hosts_pass d ++ children_pass d)))
  /\ sink_calls (trace (snd (run h)))
     = (hostvars_pass hv ++ hosts_pass d ++ children_pass d)%list.
Proof.
  intros Hf Hd Hwf Hhv Hs.
  assert (E := populate_exact h Hs d hv s1 Hd Hwf Hhv).
  rewrite (run_populate s1 Hf), E. split; [reflexivity|].
  simpl. now rewrite sink_calls_app, (fetched_silent _ _ Hf), sink_calls_map.
Qed.

(** [add_hostvars] ends with the exception of the first lookup that
    fails, and leaves the state as it found it. *)
Lemma add_hostvars_lookup_fails (d : pyval) (e : exn) (s : state) :
  py_getitem d (PStr "_meta") = Err e
  \/ (exists m, py_getitem d (PStr "_meta") = Ok m
               /\ py_getitem m (PStr "hostvars") = Err e) ->
  add_hostvars h d s = (Err e, s).
Proof.
  unfold add_hostvars. intros [H | [m [Hm H]]].
  - now rewrite H.
  - rewrite Hm, bind_lift_ok. now rewrite H.
Qed.

End Runs.

Section Counting.
Import Http Phases Expected.

Lemma count_app {A : Type} (p : A -> bool) (l1 l2 : list A) :
  count p (l1 ++ l2) = count p l1 + count p l2.
Proof. unfold count. now rewrite filter_app, length_app. Qed.

Lemma count_none {A : Type} (p : A -> bool) (l : list A) :
  forallb (fun x => negb (p x)) l = true -> count p l = 0.
Proof.
  unfold count. induction l as [|x l IH]; simpl; [reflexivity|].
  destruct (p x); simpl; [discriminate | exact IH].
Qed.

Lemma count_members (g mode : string) (x : pyval) (l : list pyval) :
  count (adds_group g) (map (member_call mode x) l) = 0.
Proof.
  apply count_none. rewrite forallb_forall. intros c Hc.
  apply in_map_iff in Hc as [y [<- _]].
  unfold member_call. now destruct (String.eqb mode "hosts").
Qed.

Lemma count_cons {A : Type} (p : A -> bool) (x : A) (l : list A) :
  count p (x :: l) = (if p x then 1 else 0) + count p l.
Proof. unfold count. simpl. now destruct (p x). Qed.

Lemma group_pass_cons (mode g : string) (v : pyval) (d : dict) :
  group_pass mode ((g, v) :: d)
  = if String.eqb g "_meta" then group_pass mode d
    else (AddGroup (PStr g)
          :: map (member_call mode (PStr g)) (listed mode v) ++ group_pass mode d)%list.
Proof.
  unfold group_pass, groups_of. simpl. now destruct (String.eqb g "_meta").
Qed.

Lemma count_group_absent (g mode : string) (d : dict) :
  mem g (keys d) = false -> count (adds_group g) (group_pass mode d) = 0.
Proof.
  induction d as [|[g' v] d IH]; [reflexivity|].
  simpl. intros H. apply orb_false_iff in H as [Hg Hd].
  rewrite group_pass_cons. destruct (String.eqb g' "_meta"); [now apply IH|].
  rewrite count_cons, count_app, count_members, (IH Hd). simpl. now rewrite Hg.
Qed.

(** A pass registers each group it goes over once. *)
Lemma count_group_present (g mode : string) (d : dict) :
  distinct (keys d) = true -> mem g (keys d) = true -> String.eqb g "_meta" = false ->
  count (adds_group g) (group_pass mode d) = 1.
Proof.
  induction d as [|[g' v] d IH]; simpl; [discriminate|].
  intros Hd Hin Hm. apply andb_true_iff in Hd as [Hg' Hd].
  rewrite group_pass_cons.
  destruct (String.eqb_spec g g') as [<-|Hne]; simpl in Hin.
  - rewrite Hm, count_cons, count_app, count_members.
    apply negb_true_iff in Hg'. rewrite (count_group_absent g mode d Hg').
    simpl. now rewrite String.eqb_refl.
  - destruct (String.eqb g' "_meta"); [now apply IH|].
    rewrite count_cons, count_app, count_members, (IH Hd Hin Hm).
    apply String.eqb_neq in Hne. simpl. now rewrite Hne.
Qed.

Lemma count_hostvars (g : string) (hv : dict) :
  count (adds_group g) (hostvars_pass hv) = 0.
Proof.
  apply count_none. rewrite forallb_forall. intros c Hc.
  apply in_map_iff in Hc as [kv [<- _]]. reflexivity.
Qed.

Lemma mem_In (g : string) (ks : list string) : In g ks -> mem g ks = true.
Proof.
  intros H. apply existsb_exists. exists g. now rewrite String.eqb_refl.
Qed.

End Counting.

(** * The claims on the population of the inventory *)

Section Population.
Import Http Phases Expected Samples.

(** C1: the inventory calls of every run of [parse] are three runs one
    after the other: host-variable registrations, then [add_group] and
    [add_host] calls, then [add_group] and [add_child] calls; so every
    host-variable registration comes before every group operation and
    every [add_host] before every [add_child].  When the fetched document
    is well formed and the inventory accepts the calls, [parse] returns
    and the three runs are: one registration per host of
    [_meta.hostvars]; for every key but [_meta], in order, the group and
    each entry of its [hosts]; for every key but [_meta] again, the group
    and each entry of its [children]. *)
Theorem parse_three_passes :
  forall h : host,
    (exists l1 l2 l3,
        sink_calls (trace (snd (run h))) = (l1 ++ l2 ++ l3)%list
        /\ forallb is_hostvars l1 = true
        /\ forallb hosts_pass_op l2 = true
        /\ forallb children_pass_op l3 = true)
    /\ precedes is_hostvars is_group_op (sink_calls (trace (snd (run h))))
    /\ precedes is_add_host is_add_child (sink_calls (trace (snd (run h))))
    /\ (forall (s1 : state) (d hv : dict),
          resolve_and_fetch h (init h) = (Ok tt, s1) ->
          data (self s1) = PDict d ->
          well_formed d = true ->
          hostvars_of d = Some hv ->
          (forall t c, sink h t c = None) ->
          fst (run h) = Ok tt
          /\ sink_calls (trace (snd (run h)))
             = (hostvars_pass hv ++ hosts_pass d ++ children_pass d)%list).
Proof.
  intros h.
  destruct (run_passes h) as (l1 & l2 & l3 & E & H1 & H2 & H3).
  split; [now exists l1, l2, l3|]. rewrite E.
  split; [|split].
  - apply precedes_app.
    + apply forallb_impl with (2 := H1). now intros [].
    + rewrite forallb_app. apply andb_true_iff. split.
      * apply forallb_impl with (2 := H2). now intros [].
      * apply forallb_impl with (2 := H3). now intros [].
  - rewrite app_assoc. apply precedes_app.
    + rewrite forallb_app. apply andb_true_iff. split.
      * apply forallb_impl with (2 := H1). now intros [].
      * apply forallb_impl with (2 := H2). now intros [].
    + apply forallb_impl with (2 := H3). now intros [].
  - intros s1 d hv Hf Hd Hwf Hhv Hs. rewrite <- E.
    destruct (run_exact h s1 d hv Hf Hd Hwf Hhv Hs) as [R C].
    split; [now rewrite R | exact C].
Qed.

Lemma parse_three_passes_witness :
  fst (run (serving (ok_response doc))) = Ok tt
  /\ sink_calls (trace (snd (run (serving (ok_response doc)))))
     = [PopulateHostVars [PStr "h1"] (PDict [("a", PInt 1)]);
        AddGroup (PStr "g1"); AddHost (PStr "h1") (PStr "g1"); AddGroup (PStr "g2");
        AddGroup (PStr "g1"); AddGroup (PStr "g2"); AddChild (PStr "g2") (PStr "g1")].
Proof.
  exact (proj2 (proj2 (proj2 (parse_three_passes (serving (ok_response doc)))))
           _ doc_entries doc_hostvars eq_refl eq_refl eq_refl eq_refl
           (fun _ _ => eq_refl)).
Defined.

(** C7: no [add_group], [add_host] or [add_child] call of a run of [parse]
    is made on the group [_meta], and no such call is made by a pass of
    [add_groups], whatever it is given and in either mode. *)
Theorem meta_is_never_a_group :
  forall h : host,
    Forall (fun ev => forall c, ev = Sink c -> group_of c <> Some (PStr "_meta"))
           (trace (snd (run h)))
    /\ forall (groups : pyval) (mode : string) (s : state),
         exists l, trace (snd (add_groups h groups mode s)) = (trace s ++ l)%list
                   /\ Forall (fun ev => forall c, ev = Sink c ->
                                                  group_of c <> Some (PStr "_meta")) l.
Proof.
  assert (K : forall l, forallb (fun ev => negb (on_meta ev)) l = true ->
                        Forall (fun ev => forall c, ev = Sink c ->
                                                    group_of c <> Some (PStr "_meta")) l).
  { intros l H. rewrite forallb_forall in H. apply Forall_forall.
    intros ev Hin c -> Hg. apply H in Hin. simpl in Hin. rewrite Hg in Hin.
    discriminate Hin. }
  intros h. split.
  - apply K, run_avoids_meta.
  - intros groups mode s.
    destruct (add_groups_emits h groups mode s) as [l [E Hl]].
    exists l. split; [exact E|]. apply K.
    apply forallb_impl with (2 := Hl). intros ev H. now apply andb_true_iff in H.
Qed.

(** C9: when the fetched document is well formed and the inventory accepts
    the calls, a top-level key other than [_meta] is registered with
    [add_group] once by the hosts pass and once by the children pass:
    twice in the run. *)
Theorem add_group_twice_per_group :
  forall (h : host) (s1 : state) (d hv : dict) (g : string),
    resolve_and_fetch h (init h) = (Ok tt, s1) ->
    data (self s1) = PDict d ->
    well_formed d = true ->
    hostvars_of d = Some hv ->
    (forall t c, sink h t c = None) ->
    In g (keys d) -> g <> "_meta" ->
    sink_calls (trace (snd (run h)))
    = (hostvars_pass hv ++ hosts_pass d ++ children_pass d)%list
    /\ count (adds_group g) (hostvars_pass hv) = 0
    /\ count (adds_group g) (hosts_pass d) = 1
    /\ count (adds_group g) (children_pass d) = 1
    /\ count (adds_group g) (sink_calls (trace (snd (run h)))) = 2.
Proof.
  intros h s1 d hv g Hf Hd Hwf Hhv Hs Hin Hg.
  destruct (run_exact h s1 d hv Hf Hd Hwf Hhv Hs) as [_ C].
  assert (Hdist : distinct (keys d) = true).
  { unfold well_formed in Hwf. apply andb_true_iff in Hwf as [Hwf _].
    now apply andb_true_iff in Hwf. }
  apply mem_In in Hin. apply String.eqb_neq in Hg.
  assert (C1 := count_group_present g "hosts" d Hdist Hin Hg).
  assert (C2 := count_group_present g "children" d Hdist Hin Hg).
  change (group_pass "hosts" d) with (hosts_pass d) in C1.
  change (group_pass "children" d) with (children_pass d) in C2.
  split; [exact C|]. split; [apply count_hostvars|]. split; [exact C1|].
  split; [exact C2|].
  now rewrite C, !count_app, count_hostvars, C1, C2.
Qed.

Lemma add_group_twice_per_group_witness :
  count (adds_group "g1") (sink_calls (trace (snd (run (serving (ok_response doc)))))) = 2.
Proof.
  refine (proj2 (proj2 (proj2 (proj2
            (add_group_twice_per_group (serving (ok_response doc)) _ doc_entries
               doc_hostvars "g1" eq_refl eq_refl eq_refl eq_refl (fun _ _ => eq_refl)
               _ _))))).
  - simpl. right. left. reflexivity.
  - discriminate.
Defined.

End Population.

Section MissingHostvars.
Import Http Phases Expected Samples.

(** Whatever the shape of the document, when [data['_meta']] or
    [data['_meta']['hostvars']] raises, [parse] ends with that exception
    in the state the fetch left: nothing reached the inventory. *)
Lemma hostvars_lookup_ends_parse :
  forall (h : host) (s1 : state) (e : exn),
    resolve_and_fetch h (init h) = (Ok tt, s1) ->
    is_py_none (data (self s1)) = false ->
    py_getitem (data (self s1)) (PStr "_meta") = Err e
    \/ (exists m, py_getitem (data (self s1)) (PStr "_meta") = Ok m
                  /\ py_getitem m (PStr "hostvars") = Err e) ->
    run h = (Err e, s1) /\ sink_calls (trace s1) = [].
Proof.
  intros h s1 e Hf Hn He. split; [|exact (fetched_silent h _ _ Hf)].
  rewrite (run_populate h s1 Hf). unfold populate, bind at 1, gets. simpl.
  rewrite Hn. apply bind_err. now apply add_hostvars_lookup_fails.
Qed.

(** A document that is a list, a string or a number has no [_meta] to
    look up: the exception is a [TypeError]. *)
Lemma non_mapping_document_is_type_error :
  forall (h : host) (s1 : state),
    resolve_and_fetch h (init h) = (Ok tt, s1) ->
    is_py_none (data (self s1)) = false ->
    (forall d, data (self s1) <> PDict d) ->
    run h = (Err TypeError, s1).
Proof.
  intros h s1 Hf Hn Hd.
  apply (hostvars_lookup_ends_parse h s1 TypeError Hf Hn). left.
  destruct (data (self s1)) as [| | | | | |d]; try reflexivity; try discriminate.
  now elim (Hd d).
Qed.

(** C10: when the fetched document is a mapping without [_meta], or with a
    [_meta] mapping without [hostvars], [parse] ends with the [KeyError]
    of that key, which is not an Ansible error; the state is the one the
    fetch left and its trace holds no inventory call. *)
Theorem missing_hostvars_is_key_error :
  forall (h : host) (s1 : state) (d : dict),
    resolve_and_fetch h (init h) = (Ok tt, s1) ->
    data (self s1) = PDict d ->
    lookup "_meta" d = None
    \/ (exists m, lookup "_meta" d = Some (PDict m) /\ lookup "hostvars" m = None) ->
    exists k,
      (k = "_meta" \/ k = "hostvars")
      /\ run h = (Err (KeyError (PStr k)), s1)
      /\ is_ansible_error (KeyError (PStr k)) = false
      /\ sink_calls (trace (snd (run h))) = [].
Proof.
  intros h s1 d Hf Hd Hmiss.
  assert (Hn : is_py_none (data (self s1)) = false) by now rewrite Hd.
  assert (K : exists k, (k = "_meta" \/ k = "hostvars")
              /\ (py_getitem (data (self s1)) (PStr "_meta") = Err (KeyError (PStr k))
                  \/ exists m, py_getitem (data (self s1)) (PStr "_meta") = Ok m
                               /\ py_getitem m (PStr "hostvars") = Err (KeyError (PStr k)))).
  { rewrite Hd. destruct Hmiss as [Hm | [m [Hm Hh]]].
    - exists "_meta". split; [now left|]. left. simpl. now rewrite Hm.
    - exists "hostvars". split; [now right|]. right. exists (PDict m).
      simpl. now rewrite Hm, Hh. }
  destruct K as [k [Hk He]]. exists k.
  destruct (hostvars_lookup_ends_parse h s1 _ Hf Hn He) as [R S].
  rewrite R. auto.
Qed.

Lemma missing_hostvars_is_key_error_witness :
  fst (run (serving (ok_response (PDict doc_without_meta)))) = Err (KeyError (PStr "_meta"))
  /\ sink_calls (trace (snd (run (serving (ok_response (PDict doc_without_meta)))))) = [].
Proof.
  destruct (missing_hostvars_is_key_error
              (serving (ok_response (PDict doc_without_meta))) _ doc_without_meta
              eq_refl eq_refl (or_introl eq_refl))
    as [k [Hk [R [_ S]]]].
  split; [|exact S].
  rewrite R. simpl. vm_compute in R. now inversion R.
Defined.

End MissingHostvars.

(** * Further properties of the filter *)

Section FlattenMore.
Import Dict2Ini Frame.

Lemma flatten_spec_app (m1 m2 : sections) (quote : bool) :
  flatten_spec (m1 ++ m2)%list quote
  = (flatten_spec m1 quote ++ flatten_spec m2 quote)%list.
Proof. unfold flatten_spec. apply flat_map_app. Qed.

(** The outer loop stops at the first section that is not a mapping, and
    what the loops had appended is lost with it. *)
Lemma outer_loop_fails (quote : bool) (d : dict) (ret : list ConfigRecord) :
  forallb (fun kv => is_dict (snd kv)) d = false ->
  for_each
    (fun '(section, elements) ret =>
       match py_items elements with
       | Err e => Err e
       | Ok options =>
           for_each
             (fun '(option, value) ret =>
                Ok (ret ++ [mkRecord section option (quoted quote value)])%list)
             options ret
       end)
    d ret
  = Err (AttributeError "items").
Proof.
  revert ret. induction d as [|[k v] d IH]; intros ret H; [discriminate|].
  cbn [forallb snd] in H. cbn [for_each].
  destruct v; try reflexivity.
  cbn [is_dict andb] in H. cbn [py_items].
  rewrite inner_loop_appends. now apply IH.
Qed.

Lemma append_char_inj (c : ascii) (s s' : string) :
  s ++ String c "" = s' ++ String c "" -> s = s'.
Proof.
  revert s'. induction s as [|a s IH]; intros [|a' s']; simpl; intros H.
  - reflexivity.
  - inversion H. now destruct s'.
  - inversion H. now destruct s.
  - inversion H. f_equal. now apply IH.
Qed.

Lemma quoted_inj (quote : bool) (v v' : pyval) :
  quoted quote v = quoted quote v' -> v = v'.
Proof.
  destruct quote.
  - destruct v, v'; simpl; try congruence.
    unfold fquote, dquote. simpl. intros H. inversion H.
    f_equal. now apply append_char_inj with (ascii_of_nat 34).
  - now destruct v, v'.
Qed.

Lemma flatten_spec_triples (m : sections) (quote : bool) :
  flatten_spec m quote
  = map (fun t => mkRecord (fst (fst t)) (snd (fst t)) (quoted quote (snd t))) (triples m).
Proof.
  unfold flatten_spec, triples.
  induction m as [|[s opts] m IH]; simpl; [reflexivity|].
  rewrite map_app, IH, map_map. f_equal. apply map_ext. now intros [o v].
Qed.

Lemma map_inj {A B : Type} (f : A -> B) (l l' : list A) :
  (forall x y, f x = f y -> x = y) -> map f l = map f l' -> l = l'.
Proof.
  intros Hf. revert l'. induction l as [|x l IH]; intros [|y l'] H; try discriminate.
  - reflexivity.
  - inversion H. f_equal; auto.
Qed.

End FlattenMore.

(** X1: [dict2ini] returns a list exactly when its argument is a mapping
    whose values are all mappings; otherwise it raises the
    [AttributeError] of [items], and the records of the sections before
    the faulty one are not returned. *)
Theorem dict2ini_needs_mappings :
  forall (data : pyval) (quote : bool),
    match data with
    | PDict d =>
        if forallb (fun kv => Frame.is_dict (snd kv)) d
        then exists recs, Dict2Ini.dict2ini data quote = Ok recs
        else Dict2Ini.dict2ini data quote = Err (AttributeError "items")
    | _ => Dict2Ini.dict2ini data quote = Err (AttributeError "items")
    end.
Proof.
  intros data quote. destruct data as [| | | | | |d]; try reflexivity.
  destruct (forallb (fun kv => Frame.is_dict (snd kv)) d) eqn:E.
  - destruct (mapping_of_surjective d) as [m Hm].
    + rewrite forallb_forall in E. apply Forall_forall. intros [k v] Hin.
      specialize (E _ Hin). simpl in *. destruct v; try discriminate. now eexists.
    + rewrite Hm. eexists. apply dict2ini_mapping.
  - unfold Dict2Ini.dict2ini. cbn [py_items]. now apply outer_loop_fails.
Qed.

(** X2: the records of a mapping are the records of its first sections
    followed by those of the following ones, and a section without
    options adds no record. *)
Theorem dict2ini_concatenates :
  forall (m1 m2 : Dict2Ini.sections) (quote : bool),
    (exists r1 r2,
        Dict2Ini.dict2ini (Dict2Ini.mapping_of m1) quote = Ok r1
        /\ Dict2Ini.dict2ini (Dict2Ini.mapping_of m2) quote = Ok r2
        /\ Dict2Ini.dict2ini (Dict2Ini.mapping_of (m1 ++ m2)%list) quote
           = Ok (r1 ++ r2)%list)
    /\ forall s, Dict2Ini.dict2ini (Dict2Ini.mapping_of (m1 ++ (s, []) :: m2)%list) quote
                 = Dict2Ini.dict2ini (Dict2Ini.mapping_of (m1 ++ m2)%list) quote.
Proof.
  intros m1 m2 quote. split.
  - exists (Dict2Ini.flatten_spec m1 quote), (Dict2Ini.flatten_spec m2 quote).
    rewrite !dict2ini_mapping, flatten_spec_app. auto.
  - intros s. rewrite !dict2ini_mapping, !flatten_spec_app. reflexivity.
Qed.

(** X3: with the same [quote], two mappings that give the same records
    have the same (section, option, value) triples: the quoting can be
    undone and no option is dropped. *)
Theorem dict2ini_keeps_every_option :
  forall (m m' : Dict2Ini.sections) (quote : bool),
    Dict2Ini.dict2ini (Dict2Ini.mapping_of m) quote
    = Dict2Ini.dict2ini (Dict2Ini.mapping_of m') quote ->
    Dict2Ini.triples m = Dict2Ini.triples m'.
Proof.
  intros m m' quote H. rewrite !dict2ini_mapping, !flatten_spec_triples in H.
  inversion H as [H'].
  apply map_inj in H'; [exact H'|].
  intros [[s o] v] [[s' o'] v'] E. simpl in E. inversion E.
  f_equal. now apply quoted_inj with quote.
Qed.

Lemma dict2ini_keeps_every_option_witness :
  Dict2Ini.triples [("s", [("o", PStr "v"); ("n", PInt 5)]); ("empty", [])]
  = Dict2Ini.triples [("void", []); ("s", [("o", PStr "v"); ("n", PInt 5)])].
Proof.
  apply (dict2ini_keeps_every_option
           [("s", [("o", PStr "v"); ("n", PInt 5)]); ("empty", [])]
           [("void", []); ("s", [("o", PStr "v"); ("n", PInt 5)])] true).
  reflexivity.
Defined.

(** * Further properties of the inventory plugin *)

Section DiscoveryFacts.
Import Discovery.

Lemma endswith_spec (s suffix : string) :
  endswith s suffix = true <-> exists pre, s = pre ++ suffix.
Proof.
  induction s as [|a s IH]; cbn [endswith].
  - rewrite orb_false_r, String.eqb_eq. split.
    + intros <-. now exists "".
    + intros [pre H]. destruct pre; [exact H | discriminate].
  - rewrite orb_true_iff, String.eqb_eq, IH. split.
    + intros [<- | [pre ->]]; [now exists "" | now exists (String a pre)].
    + intros [[|b pre] H]; [now left|].
      right. exists pre. simpl in H. now inversion H.
Qed.

End DiscoveryFacts.

(** X4: [verify_file] accepts a path exactly when the host's own test
    accepts it and the path ends in http_inventory.yaml or
    http_inventory.yml; anything may come before the suffix. *)
Theorem verify_file_iff :
  forall (base_verify_file : string -> bool) (path : string),
    Discovery.verify_file base_verify_file path = true
    <-> base_verify_file path = true
        /\ ((exists pre, path = pre ++ "http_inventory.yaml")
            \/ (exists pre, path = pre ++ "http_inventory.yml")).
Proof.
  intros base path. unfold Discovery.verify_file.
  now rewrite andb_true_iff, orb_true_iff, !endswith_spec.
Qed.

Section Keeps.
Import Http Phases Expected Frame.

Context {B : Type} (f : plugin -> B).

Lemma keeps_same {A : Type} (m : M A) :
  (forall s, self (snd (m s)) = self s) -> keeps f m.
Proof. intros H s. now rewrite H. Qed.

Lemma keeps_ret {A : Type} (a : A) : keeps f (ret a).
Proof. now apply keeps_same. Qed.

Lemma keeps_raise {A : Type} (e : exn) : keeps f (@raise A e).
Proof. now apply keeps_same. Qed.

Lemma keeps_lift {A : Type} (r : result A) : keeps f (lift r).
Proof. destruct r; [apply keeps_ret | apply keeps_raise]. Qed.

Lemma keeps_gets {A : Type} (g : plugin -> A) : keeps f (gets g).
Proof. now apply keeps_same. Qed.

Lemma keeps_request (h : host) (req : request) : keeps f (request_ h req).
Proof. now apply keeps_same. Qed.

Lemma keeps_decode (r : response) : keeps f (decode r).
Proof. now apply keeps_same. Qed.

Lemma keeps_call (h : host) (c : sink_call) : keeps f (call h c).
Proof. now apply keeps_same. Qed.

Lemma keeps_modify (g : plugin -> plugin) :
  (forall p, f (g p) = f p) -> keeps f (modify g).
Proof. intros H s. apply H. Qed.

Lemma keeps_bind {A C : Type} (m : M A) (k : A -> M C) :
  keeps f m -> (forall a, keeps f (k a)) -> keeps f (bind m k).
Proof.
  intros Hm Hk s. unfold bind. specialize (Hm s).
  destruct (m s) as [[a|e] s']; simpl in Hm; [|exact Hm].
  now rewrite Hk.
Qed.

Lemma keeps_when (b : bool) (m : M unit) : keeps f m -> keeps f (when b m).
Proof. intros H. destruct b; [exact H | apply keeps_ret]. Qed.

Lemma keeps_for_m {A : Type} (l : list A) (body : A -> M unit) :
  (forall x, keeps f (body x)) -> keeps f (for_m l body).
Proof.
  intros H. induction l as [|x l IH]; simpl.
  - apply keeps_ret.
  - apply keeps_bind; auto.
Qed.

End Keeps.

(** Splits a goal [keeps f m] along the shape of [m]; what is left are the
    assignments [m] makes. *)
Ltac keep :=
  repeat (intros;
    lazymatch goal with
    | |- Frame.keeps _ (Http.bind _ _) => apply keeps_bind
    | |- Frame.keeps _ (Http.ret _) => apply keeps_ret
    | |- Frame.keeps _ (Http.raise _) => apply keeps_raise
    | |- Frame.keeps _ (Http.lift _) => apply keeps_lift
    | |- Frame.keeps _ (Http.gets _) => apply keeps_gets
    | |- Frame.keeps _ (Http.when _ _) => apply keeps_when
    | |- Frame.keeps _ (Http.for_m _ _) => apply keeps_for_m
    | |- Frame.keeps _ (Http.request_ _ _) => apply keeps_request
    | |- Frame.keeps _ (Http.decode _) => apply keeps_decode
    | |- Frame.keeps _ (Http.call _ _) => apply keeps_call
    | |- Frame.keeps _ (Http.modify _) => apply keeps_modify
    | |- Frame.keeps _ (if ?b then _ else _) => destruct b eqn:?
    | |- Frame.keeps _ (match ?x with _ => _ end) => destruct x eqn:?
    end).

Section Settings.
Import Http Phases Expected Frame.

Variable h : host.

Lemma valid_keeps {B : Type} (f : plugin -> B) (r : response) :
  keeps f (is_valid_content r).
Proof. unfold is_valid_content. keep. Qed.

Lemma fetch_keeps_settings : keeps settings (fetch h).
Proof.
  unfold fetch, get_generic_page, get_gitlab_page, set_data.
  keep; try apply valid_keeps; reflexivity.
Qed.

Lemma populate_keeps {B : Type} (f : plugin -> B) : keeps f (populate h).
Proof. unfold populate, add_hostvars, add_groups, has_mode, members. keep. Qed.

(** [resolve] returns, and fills the attributes that were [None]. *)
Lemma resolve_any (s : state) :
  resolve h s
  = (Ok tt,
     mkState (mkPlugin (or_option (url (self s)) (get_option h "url"))
                (or_option (auth_method (self s)) (get_option h "auth_method"))
                (or_option (username (self s)) (get_option h "username"))
                (or_option (password (self s)) (get_option h "password"))
                (data (self s)))
             (trace s)).
Proof.
  destruct s as [[u a n p d] t]. destruct u, a, n, p; reflexivity.
Qed.

Lemma parse_after_resolve (s : state) :
  parse h s
  = match read_config_data h with
    | Ok _ =>
        bind (fetch h) (fun _ => populate h)
          (mkState (mkPlugin (or_option (url (self s)) (get_option h "url"))
                      (or_option (auth_method (self s)) (get_option h "auth_method"))
                      (or_option (username (self s)) (get_option h "username"))
                      (or_option (password (self s)) (get_option h "password"))
                      (data (self s)))
                   (trace s))
    | Err e => (Err e, s)
    end.
Proof.
  rewrite parse_phases. unfold bind at 1. rewrite resolve_and_fetch_phases.
  destruct (read_config_data h) as [[]|e]; [|reflexivity].
  cbn [lift]. unfold bind at 1, ret.
  now rewrite (bind_ok _ _ _ _ _ (resolve_any s)).
Qed.

End Settings.

(** X5: [parse] never replaces a value the instance already holds for
    [url], [auth_method], [username] or [password].  When the
    configuration loads, each of them ends at the value the instance held
    when [parse] started, and at the configured option only where the
    instance held [None], whatever the fetch and the population do; when
    loading the configuration raises, the four are left as they were. *)
Theorem parse_never_overrides_settings :
  forall (h : Http.host) (s : Http.state),
    Frame.settings (Http.self (snd (Http.parse h s)))
    = match Http.read_config_data h with
      | Ok _ =>
          (Frame.or_option (Http.url (Http.self s)) (Http.get_option h "url"),
           Frame.or_option (Http.auth_method (Http.self s)) (Http.get_option h "auth_method"),
           Frame.or_option (Http.username (Http.self s)) (Http.get_option h "username"),
           Frame.or_option (Http.password (Http.self s)) (Http.get_option h "password"))
      | Err _ => Frame.settings (Http.self s)
      end.
Proof.
  intros h s. rewrite parse_after_resolve.
  destruct (Http.read_config_data h) as [[]|e]; [|reflexivity].
  assert (K : Frame.keeps Frame.settings
                (Http.bind (Phases.fetch h) (fun _ => Phases.populate h))).
  { apply keeps_bind; [apply fetch_keeps_settings | intros; apply populate_keeps]. }
  now rewrite K.
Qed.

Section Steps.
Import Http Phases Expected Frame.

Lemma bind_gets {A B : Type} (f : plugin -> A) (k : A -> M B) (s : state) :
  bind (gets f) k s = k (f (self s)) s.
Proof. reflexivity. Qed.

Lemma bind_ret {A B : Type} (a : A) (k : A -> M B) (s : state) :
  bind (ret a) k s = k a s.
Proof. reflexivity. Qed.

Lemma bind_request {B : Type} (h : host) (req : request) (k : response -> M B)
    (s : state) :
  bind (request_ h req) k s
  = match send h (trace s) req with
    | Ok r => k r (log (Request req) s)
    | Err e => (Err e, log (Request req) s)
    end.
Proof. unfold bind, request_. now destruct (send h (trace s) req). Qed.

Lemma requests_app (l1 l2 : list event) :
  requests (l1 ++ l2) = (requests l1 ++ requests l2)%list.
Proof. apply flat_map_app. Qed.

Lemma for_m_app {A : Type} (l1 l2 : list A) (body : A -> M unit) (s : state) :
  for_m (l1 ++ l2) body s = bind (for_m l1 body) (fun _ => for_m l2 body) s.
Proof.
  revert s. induction l1 as [|x l1 IH]; intros s; simpl.
  - reflexivity.
  - rewrite bind_assoc. apply bind_ext. intros _ s'. apply IH.
Qed.

Lemma generic_not_gitlab (a : option string) :
  generic_auth a = true -> gitlab_auth a = false.
Proof.
  destruct a as [a|]; simpl; [|reflexivity].
  intros H. apply orb_true_iff in H as [H|H]; apply String.eqb_eq in H; now subst.
Qed.

(** Validation looks at the response only: the state is the one it
    started in, and the value, if any, is [True]. *)
Lemma valid_outcome (r : response) (s : state) :
  is_valid_content r s = (Ok true, s) \/ exists e, is_valid_content r s = (Err e, s).
Proof.
  unfold is_valid_content.
  destruct (header "Content-Type" r) as [ct|e]; [|right; now exists e].
  cbv [bind lift ret raise gets].
  destruct (status_code r >=? 300)%Z; [right; now eexists|].
  destruct (contains "json" ct); [now left | right; now eexists].
Qed.

End Steps.

(** X6: a response that carries a Content-Type header and a status of 300
    or more makes [get_generic_page] raise [AnsibleError] with a message
    that spells the status code out; the trace then holds the request and
    nothing else, so the body was not decoded. *)
Theorem bad_status_is_ansible_error :
  forall (h : Http.host) (r : Http.response) (ct : string) (s : Http.state),
    Http.send h (Http.trace s) (Phases.generic_request (Http.self s)) = Ok r ->
    Http.header "Content-Type" r = Ok ct ->
    (Http.status_code r >= 300)%Z ->
    Http.get_generic_page h s
    = (Err (AnsibleError (Http.bad_status_msg (Http.status_code r))),
       Http.log (Http.Request (Phases.generic_request (Http.self s))) s)
    /\ Expected.substring_of (str_of_int (Http.status_code r))
         (Http.bad_status_msg (Http.status_code r))
    /\ Phases.decoded (Http.trace (snd (Http.get_generic_page h s)))
       = Phases.decoded (Http.trace s).
Proof.
  intros h r ct s Hr Hct Hst.
  destruct (bad_status_with_content_type h r ct s Hr Hct Hst) as [E M].
  split; [exact E|]. split; [exact M|].
  rewrite E. simpl. unfold Phases.decoded. rewrite flat_map_app. simpl.
  now rewrite app_nil_r.
Qed.

Lemma bad_status_is_ansible_error_witness :
  fst (Http.get_generic_page (Samples.serving Samples.not_found)
         (Http.init (Samples.serving Samples.not_found)))
  = Err (AnsibleError (Http.bad_status_msg 404)).
Proof.
  destruct (bad_status_is_ansible_error (Samples.serving Samples.not_found)
              Samples.not_found "text/html"
              (Http.init (Samples.serving Samples.not_found)) eq_refl eq_refl)
    as [E _].
  - vm_compute. discriminate.
  - now rewrite E.
Defined.

(** X7: [is_valid_content] never returns [False] and never changes the
    instance or the trace: it returns [True] or raises. *)
Theorem is_valid_content_true_or_raises :
  forall (r : Http.response) (s : Http.state),
    snd (Http.is_valid_content r s) = s
    /\ fst (Http.is_valid_content r s) <> Ok false.
Proof.
  intros r s. destruct (valid_outcome r s) as [E | [e E]]; rewrite E; simpl;
    split; congruence.
Qed.

(** X8: whatever the answer, [get_generic_page] sends one request, a GET
    of [self.url]; it carries the credentials when the instance has both a
    username and a password, and none when either is missing. *)
Theorem generic_page_sends_one_request :
  forall (h : Http.host) (s : Http.state),
    exists auth,
      Phases.requests (Http.trace (snd (Http.get_generic_page h s)))
      = (Phases.requests (Http.trace s) ++ [Http.Get (Http.url (Http.self s)) auth])%list
      /\ (forall n p, Http.username (Http.self s) = Some n ->
                      Http.password (Http.self s) = Some p -> auth = Some (n, p))
      /\ (Http.username (Http.self s) = None \/ Http.password (Http.self s) = None ->
          auth = None).
Proof.
  intros h s.
  assert (R : exists auth,
             Phases.generic_request (Http.self s) = Http.Get (Http.url (Http.self s)) auth
             /\ (forall n p, Http.username (Http.self s) = Some n ->
                             Http.password (Http.self s) = Some p -> auth = Some (n, p))
             /\ (Http.username (Http.self s) = None \/ Http.password (Http.self s) = None ->
                 auth = None)).
  { unfold Phases.generic_request.
    destruct (Http.username (Http.self s)) as [n|], (Http.password (Http.self s)) as [p|];
      eexists; (split; [reflexivity|]); split; try congruence;
      intros [H|H]; discriminate H. }
  destruct R as [auth [R [H1 H2]]]. exists auth. split; [|now split].
  rewrite generic_page_request, bind_request, R.
  destruct (Http.send h (Http.trace s) (Http.Get (Http.url (Http.self s)) auth)) as [r|e].
  - unfold Http.bind.
    destruct (valid_outcome r (Http.log (Http.Request (Http.Get (Http.url (Http.self s)) auth)) s))
      as [E | [e E]]; rewrite E; simpl; rewrite ?requests_app; simpl;
      now rewrite ?app_nil_r.
  - simpl. now rewrite requests_app.
Qed.

Section Fetching.
Import Http Phases Expected Frame.

Variable h : host.

(** The fetch of a run that takes the generic branch and gets a valid
    answer. *)
Lemma generic_fetch (u : string) (r : response) (ct : string) :
  read_config_data h = Ok tt ->
  resolved h "HTTP_URL" "url" = Some u ->
  generic_auth (resolved h "HTTP_AUTH_METHOD" "auth_method") = true ->
  send h [] (generic_request (self (resolved_state h))) = Ok r ->
  (status_code r < 300)%Z ->
  header "Content-Type" r = Ok ct ->
  substring_of "json" ct ->
  resolve_and_fetch h (init h)
  = match json r with
    | Ok d =>
        (Ok tt,
         mkState (mkPlugin (resolved h "HTTP_URL" "url")
                    (resolved h "HTTP_AUTH_METHOD" "auth_method")
                    (resolved h "HTTP_USERNAME" "username")
                    (resolved h "HTTP_PASSWORD" "password") d)
                 [Request (generic_request (self (resolved_state h))); JsonDecode r])
    | Err e =>
        (Err e,
         extend (resolved_state h)
           [Request (generic_request (self (resolved_state h))); JsonDecode r])
    end.
Proof.
  intros Hl Hu Hg Hr Hst Hct Hsub.
  apply contains_spec in Hsub.
  rewrite fetch_init, Hl.
  change (mkPlugin (resolved h "HTTP_URL" "url")
            (resolved h "HTTP_AUTH_METHOD" "auth_method")
            (resolved h "HTTP_USERNAME" "username")
            (resolved h "HTTP_PASSWORD" "password"))
    with (mkPlugin (url (self (resolved_state h)))
            (auth_method (self (resolved_state h)))
            (username (self (resolved_state h)))
            (password (self (resolved_state h)))).
  assert (U : url (self (resolved_state h)) = Some u) by exact Hu.
  assert (A : generic_auth (auth_method (self (resolved_state h))) = true) by exact Hg.
  change (send h (trace (resolved_state h))
            (generic_request (self (resolved_state h))) = Ok r) in Hr.
  change [Request (generic_request (self (resolved_state h))); JsonDecode r]
    with (trace (resolved_state h)
          ++ [Request (generic_request (self (resolved_state h))); JsonDecode r])%list
    at 1.
  revert Hr U A. generalize (resolved_state h) as s0. intros s0 Hr U A.
  assert (P : get_generic_page h s0
              = (json r, extend s0 [Request (generic_request (self s0)); JsonDecode r])).
  { rewrite (generic_page_answer h r _ Hr).
    rewrite (bind_ok _ _ _ _ _ (valid_json r ct _ Hct Hst Hsub)).
    unfold decode, log, extend. simpl. now rewrite <- app_assoc. }
  unfold fetch.
  rewrite bind_gets, U. cbn [is_none]. rewrite bind_ret, bind_gets, A. cbn [when].
  rewrite bind_assoc. unfold bind at 1. rewrite P.
  destruct (json r) as [d|e]; [|reflexivity].
  unfold bind at 1. cbn [set_data modify].
  rewrite bind_gets. cbn [self auth_method extend].
  rewrite (generic_not_gitlab _ A). cbn [when ret]. now rewrite U.
Qed.

Lemma run_fails_with_fetch (e : exn) (s1 : state) :
  resolve_and_fetch h (init h) = (Err e, s1) -> run h = (Err e, s1).
Proof. intros H. unfold run. rewrite parse_phases. now apply bind_err. Qed.

End Fetching.

(** X9: when the configuration loads, on the generic branch
    ([auth_method] unset, "None" or "basic"), a url and a JSON-typed
    answer below 300 make the fetch send one request and decode the body
    once; what the body decodes to becomes [self.data], the resolved
    settings stay, and when the body does not decode [parse] ends with
    the decoder's exception before any inventory call. *)
Theorem generic_fetch_stores_document :
  forall (h : Http.host) (u : string) (r : Http.response) (ct : string),
    Http.read_config_data h = Ok tt ->
    Phases.resolved h "HTTP_URL" "url" = Some u ->
    Http.generic_auth (Phases.resolved h "HTTP_AUTH_METHOD" "auth_method") = true ->
    Http.send h [] (Phases.generic_request (Http.self (Phases.resolved_state h))) = Ok r ->
    (Http.status_code r < 300)%Z ->
    Http.header "Content-Type" r = Ok ct ->
    Expected.substring_of "json" ct ->
    (forall d, Http.json r = Ok d ->
       exists s1,
         Phases.resolve_and_fetch h (Http.init h) = (Ok tt, s1)
         /\ Http.data (Http.self s1) = d
         /\ Http.trace s1
            = [Http.Request (Phases.generic_request (Http.self (Phases.resolved_state h)));
               Http.JsonDecode r]
         /\ Frame.settings (Http.self s1)
            = Frame.settings (Http.self (Phases.resolved_state h)))
    /\ (forall e, Http.json r = Err e ->
          fst (Http.run h) = Err e
          /\ Phases.sink_calls (Http.trace (snd (Http.run h))) = []).
Proof.
  intros h u r ct Hl Hu Hg Hr Hst Hct Hsub.
  pose proof (generic_fetch h u r ct Hl Hu Hg Hr Hst Hct Hsub) as F.
  split.
  - intros d Hd. rewrite Hd in F. eexists. split; [exact F|]. now repeat split.
  - intros e He. rewrite He in F.
    rewrite (run_fails_with_fetch h _ _ F). split; [reflexivity|].
    exact (fetched_silent h _ _ F).
Qed.

Lemma generic_fetch_stores_document_witness :
  exists s1,
    Phases.resolve_and_fetch (Samples.serving (Samples.ok_response Samples.doc))
      (Http.init (Samples.serving (Samples.ok_response Samples.doc))) = (Ok tt, s1)
    /\ Http.data (Http.self s1) = Samples.doc.
Proof.
  destruct (proj1 (generic_fetch_stores_document
                     (Samples.serving (Samples.ok_response Samples.doc))
                     "https://example.org/inventory.json"
                     (Samples.ok_response Samples.doc) "application/json"
                     eq_refl eq_refl eq_refl eq_refl eq_refl eq_refl
                     (ex_intro _ "application/" (ex_intro _ "" eq_refl)))
              Samples.doc eq_refl) as [s1 [F [D _]]].
  exists s1. now split.
Defined.

(** X10: a body that decodes to [null] is taken for no data: when the
    configuration loads and the fetch goes through, [parse] raises the
    [AnsibleParserError] that says no data was received, and makes no
    inventory call. *)
Theorem null_document_is_no_data :
  forall (h : Http.host) (u : string) (r : Http.response) (ct : string),
    Http.read_config_data h = Ok tt ->
    Phases.resolved h "HTTP_URL" "url" = Some u ->
    Http.generic_auth (Phases.resolved h "HTTP_AUTH_METHOD" "auth_method") = true ->
    Http.send h [] (Phases.generic_request (Http.self (Phases.resolved_state h))) = Ok r ->
    (Http.status_code r < 300)%Z ->
    Http.header "Content-Type" r = Ok ct ->
    Expected.substring_of "json" ct ->
    Http.json r = Ok PNone ->
    exists s,
      Http.run h = (Err (AnsibleParserError Http.no_data_msg), s)
      /\ Phases.decoded (Http.trace s) = [r]
      /\ Phases.sink_calls (Http.trace s) = [].
Proof.
  intros h u r ct Hl Hu Hg Hr Hst Hct Hsub Hd.
  pose proof (generic_fetch h u r ct Hl Hu Hg Hr Hst Hct Hsub) as F.
  rewrite Hd in F. eexists.
  rewrite (run_populate h _ F). split; [reflexivity|]. now split.
Qed.

Lemma null_document_is_no_data_witness :
  fst (Http.run (Samples.serving (Samples.ok_response PNone)))
  = Err (AnsibleParserError Http.no_data_msg).
Proof.
  destruct (null_document_is_no_data (Samples.serving (Samples.ok_response PNone))
              "https://example.org/inventory.json"
              (Samples.ok_response PNone) "application/json"
              eq_refl eq_refl eq_refl eq_refl eq_refl eq_refl
              (ex_intro _ "application/" (ex_intro _ "" eq_refl)) eq_refl)
    as [s [R _]].
  now rewrite R.
Defined.

(** X11: when the options cannot be resolved or the fetch raises, [parse]
    ends with that exception in the state the fetch left, and no
    inventory call has been made: a failed fetch leaves the inventory
    untouched. *)
Theorem failed_fetch_leaves_inventory_untouched :
  forall (h : Http.host) (e : exn) (s1 : Http.state),
    Phases.resolve_and_fetch h (Http.init h) = (Err e, s1) ->
    Http.run h = (Err e, s1) /\ Phases.sink_calls (Http.trace s1) = [].
Proof.
  intros h e s1 F. split.
  - now apply run_fails_with_fetch.
  - exact (fetched_silent h _ _ F).
Qed.

Lemma failed_fetch_leaves_inventory_untouched_witness :
  exists s1,
    Http.run (Samples.serving Samples.html_response)
    = (Err (AnsibleParserError
              (Http.not_json_msg (Some "https://example.org/inventory.json"))), s1)
    /\ Phases.sink_calls (Http.trace s1) = [].
Proof.
  eexists.
  apply (failed_fetch_leaves_inventory_untouched (Samples.serving Samples.html_response)).
  reflexivity.
Defined.

(** X12: when the login page gives a target url and a token and the three
    requests are answered, [get_gitlab_page] sends, in this order, a GET
    of [self.url], a POST of the token with the username and the password
    to the url the page named, and a GET of [self.url] with the same form;
    the answer to the POST is not looked at, and the answer to the last
    GET is validated and decoded. *)
Theorem gitlab_page_logs_in_then_fetches :
  forall (h : Http.host) (s : Http.state) (oauth posted r : Http.response)
         (page : Http.tree) (login_url token ct : string),
    Http.send h (Http.trace s) (Http.SessionGet (Http.url (Http.self s)) None) = Ok oauth ->
    Http.html_fromstring h (Http.text oauth) = Ok page ->
    Frame.login_target page = Ok (login_url, token) ->
    Http.send h
      (Http.trace s ++ [Http.Request (Http.SessionGet (Http.url (Http.self s)) None)])
      (Http.SessionPost login_url (Frame.login_form token (Http.self s))) = Ok posted ->
    Http.send h
      ((Http.trace s ++ [Http.Request (Http.SessionGet (Http.url (Http.self s)) None)])
       ++ [Http.Request (Http.SessionPost login_url (Frame.login_form token (Http.self s)))])
      (Http.SessionGet (Http.url (Http.self s))
         (Some (Frame.login_form token (Http.self s)))) = Ok r ->
    (Http.status_code r < 300)%Z ->
    Http.header "Content-Type" r = Ok ct ->
    Expected.substring_of "json" ct ->
    Http.get_gitlab_page h s
    = (Http.json r,
       Expected.extend s
         (Frame.gitlab_events (Http.url (Http.self s)) login_url
            (Frame.login_form token (Http.self s)) r)).
Proof.
  intros h s oauth posted r page login_url token ct H1 Hp Ht H2 H3 Hst Hct Hsub.
  apply contains_spec in Hsub.
  unfold Frame.login_target in Ht.
  destruct (Http.first (page Http.xmeta)) as [meta|] eqn:E1; [|discriminate].
  destruct (Http.attrib meta "content") as [lu|] eqn:E2; [|discriminate].
  destruct (Http.first (page Http.xinput)) as [input|] eqn:E3; [|discriminate].
  destruct (Http.attrib input "value") as [tk|] eqn:E4; [|discriminate].
  inversion Ht. subst lu tk.
  unfold Http.get_gitlab_page.
  rewrite bind_gets, bind_request, H1, Hp, bind_lift_ok.
  rewrite E1, bind_lift_ok, E2, bind_lift_ok, E3, bind_lift_ok, E4, bind_lift_ok.
  rewrite !bind_gets. cbv zeta. cbn [Http.log Http.self Http.trace].
  rewrite bind_request. cbn [Http.log Http.self Http.trace].
  unfold Frame.login_form in H2, H3. rewrite H2.
  rewrite bind_request. cbn [Http.log Http.self Http.trace].
  match goal with
  | |- match ?x with _ => _ end = _ => replace x with (Ok r) by (symmetry; exact H3)
  end.
  rewrite (bind_ok _ _ _ _ _ (valid_json r ct _ Hct Hst Hsub)).
  unfold Http.decode, Http.log, Expected.extend, Frame.gitlab_events, Frame.login_form.
  cbn [Http.self Http.trace]. now rewrite <- !app_assoc.
Qed.

Lemma gitlab_page_logs_in_then_fetches_witness :
  Phases.requests
    (Http.trace (snd (Http.get_gitlab_page Samples.gitlab_host
                        (Phases.resolved_state Samples.gitlab_host))))
  = [Http.SessionGet (Some "https://pages.example.org/inventory.json") None;
     Http.SessionPost "https://gitlab.example.org/users/sign_in"
       [("authenticity_token", Some "t0k3n"); ("user[login]", Some "alice");
        ("user[password]", Some "secret")];
     Http.SessionGet (Some "https://pages.example.org/inventory.json")
       (Some [("authenticity_token", Some "t0k3n"); ("user[login]", Some "alice");
              ("user[password]", Some "secret")])].
Proof.
  rewrite (gitlab_page_logs_in_then_fetches Samples.gitlab_host
             (Phases.resolved_state Samples.gitlab_host)
             (Samples.ok_response Samples.doc) (Samples.ok_response Samples.doc)
             (Samples.ok_response Samples.doc) Samples.login_page
             "https://gitlab.example.org/users/sign_in" "t0k3n" "application/json"
             eq_refl eq_refl eq_refl eq_refl eq_refl eq_refl eq_refl
             (ex_intro _ "application/" (ex_intro _ "" eq_refl))).
  reflexivity.
Defined.

(** X13: when the first answer cannot be parsed as a page, or the page
    lacks the og:url meta tag, its [content], the authenticity_token input
    or its [value], [get_gitlab_page] ends with the exception of that
    step after its first request: nothing is posted, so the username and
    the password do not leave the plugin. *)
Theorem gitlab_page_without_login_form :
  forall (h : Http.host) (s : Http.state) (oauth : Http.response) (e : exn),
    Http.send h (Http.trace s) (Http.SessionGet (Http.url (Http.self s)) None) = Ok oauth ->
    Http.html_fromstring h (Http.text oauth) = Err e
    \/ (exists page, Http.html_fromstring h (Http.text oauth) = Ok page
                     /\ Frame.login_target page = Err e) ->
    Http.get_gitlab_page h s
    = (Err e, Expected.extend s
                [Http.Request (Http.SessionGet (Http.url (Http.self s)) None)]).
Proof.
  intros h s oauth e H1 Hf.
  unfold Http.get_gitlab_page. rewrite bind_gets, bind_request, H1.
  destruct Hf as [Hp | [page [Hp Ht]]]; rewrite Hp; [reflexivity|].
  rewrite bind_lift_ok. unfold Frame.login_target in Ht.
  destruct (Http.first (page Http.xmeta)) as [meta|] eqn:E1;
    [rewrite bind_lift_ok | now inversion Ht].
  destruct (Http.attrib meta "content") as [lu|] eqn:E2;
    [rewrite bind_lift_ok | now inversion Ht].
  destruct (Http.first (page Http.xinput)) as [input|] eqn:E3;
    [rewrite bind_lift_ok | now inversion Ht].
  destruct (Http.attrib input "value") as [tk|] eqn:E4; [discriminate|].
  now inversion Ht.
Qed.

Lemma gitlab_page_without_login_form_witness :
  Http.get_gitlab_page Samples.gitlab_blank_host
    (Phases.resolved_state Samples.gitlab_blank_host)
  = (Err IndexError,
     Expected.extend (Phases.resolved_state Samples.gitlab_blank_host)
       [Http.Request
          (Http.SessionGet (Some "https://pages.example.org/inventory.json") None)]).
Proof.
  apply (gitlab_page_without_login_form Samples.gitlab_blank_host
           (Phases.resolved_state Samples.gitlab_blank_host)
           (Samples.ok_response Samples.doc) IndexError eq_refl).
  right. exists Samples.blank_page. split; reflexivity.
Defined.

(** X14: in a mode other than "hosts" and "children", [add_groups] only
    registers groups: every call it makes is an [add_group]. *)
Theorem add_groups_other_mode_only_registers :
  forall (h : Http.host) (groups : pyval) (mode : string) (s : Http.state),
    mode <> "hosts" -> mode <> "children" ->
    exists l,
      Http.trace (snd (Http.add_groups h groups mode s)) = (Http.trace s ++ l)%list
      /\ forallb (Expected.pass_event Expected.is_add_group) l = true.
Proof.
  intros h groups mode s Hh Hc.
  destruct (add_groups_emits h groups mode s) as [l [E Hl]].
  exists l. split; [exact E|].
  apply forallb_impl with (2 := Hl).
  apply String.eqb_neq in Hh, Hc.
  intros [r|r|c]; simpl; try discriminate.
  unfold Expected.mode_op. rewrite Hh, Hc. simpl.
  rewrite !orb_false_r. intros H. now apply andb_true_iff in H.
Qed.

Lemma add_groups_other_mode_only_registers_witness :
  Phases.sink_calls
    (Http.trace (snd (Http.add_groups (Samples.serving (Samples.ok_response Samples.doc))
                        Samples.doc "vars"
                        (Http.init (Samples.serving (Samples.ok_response Samples.doc))))))
  = [Http.AddGroup (PStr "g1"); Http.AddGroup (PStr "g2")].
Proof.
  destruct (add_groups_other_mode_only_registers
              (Samples.serving (Samples.ok_response Samples.doc)) Samples.doc "vars"
              (Http.init (Samples.serving (Samples.ok_response Samples.doc))))
    as [l [E _]]; [discriminate | discriminate |].
  reflexivity.
Defined.

Section ListGroups.
Import Http Phases Expected Frame.

Variable h : host.
Hypothesis accepts : forall t c, sink h t c = None.

(** The iteration of a pass over a group that is not a mapping: the group
    is registered, then [keys] is missing. *)
Lemma group_body_fails (d : dict) (mode g : string) (v : pyval) (s : state) :
  mode = "hosts" \/ mode = "children" ->
  lookup g d = Some v -> String.eqb g "_meta" = false -> is_dict v = false ->
  (call h (AddGroup (PStr g)) ;;
   (if String.eqb mode "hosts" then
      b <- has_mode (PDict d) (PStr g) mode ;;
      when b (hosts <- members (PDict d) (PStr g) "hosts" ;;
              for_m hosts (fun host => call h (AddHost host (PStr g))))
    else ret tt) ;;
   (if String.eqb mode "children" then
      b <- has_mode (PDict d) (PStr g) mode ;;
      when b (children <- members (PDict d) (PStr g) "children" ;;
              for_m children (fun child => call h (AddChild (PStr g) child)))
    else ret tt)) s
  = (Err (AttributeError "keys"), extend s [Sink (AddGroup (PStr g))]).
Proof.
  intros Hmode Hg Hm Hv.
  assert (K : forall key s', has_mode (PDict d) (PStr g) key s'
                             = (Err (AttributeError "keys"), s')).
  { intros key s'. unfold has_mode.
    rewrite (getitem_dict d g v Hg), bind_lift_ok.
    now destruct v. }
  rewrite (bind_ok _ _ _ _ _ (call_accepted h accepts _ s)).
  destruct Hmode as [-> | ->]; cbn [String.eqb Ascii.eqb Bool.eqb].
  - apply bind_err. apply bind_err. apply K.
  - rewrite bind_ret. apply bind_err. apply K.
Qed.

End ListGroups.

(** X15: a group whose value is not a mapping (a plain list of hosts, for
    one) stops the pass: the groups before it are handled, the group
    itself is registered, and then [add_groups] raises the
    [AttributeError] of [keys]; the groups after it are not reached. *)
Theorem group_that_is_not_a_mapping_stops_the_pass :
  forall (h : Http.host) (d pre post : dict) (g mode : string) (v : pyval)
         (s : Http.state),
    (forall t c, Http.sink h t c = None) ->
    d = (pre ++ (g, v) :: post)%list ->
    Expected.distinct (keys d) = true ->
    forallb (fun kv => String.eqb (fst kv) "_meta" || Expected.group_ok (snd kv)) pre = true ->
    g <> "_meta" ->
    Frame.is_dict v = false ->
    mode = "hosts" \/ mode = "children" ->
    Http.add_groups h (PDict d) mode s
    = (Err (AttributeError "keys"),
       Expected.extend s
         (map Http.Sink (Expected.group_pass mode pre ++ [Http.AddGroup (PStr g)]))).
Proof.
  intros h d pre post g mode v s Hs Hd Hdist Hpre Hg Hv Hmode.
  assert (In_d : forall k x, In (k, x) (pre ++ [(g, v)])%list -> lookup k d = Some x).
  { intros k x Hin. apply lookup_distinct; [exact Hdist|].
    rewrite Hd. apply in_app_iff. apply in_app_iff in Hin as [Hin | [Hin | []]].
    - now left.
    - right. now left. }
  assert (Hk : map PStr (keys d)
               = (map PStr (keys pre) ++ PStr g :: map PStr (keys post))%list).
  { rewrite Hd. unfold keys. now rewrite !map_app. }
  unfold Http.add_groups. simpl py_iter. rewrite bind_lift_ok, Hk, for_m_app.
  erewrite bind_ok.
  2:{ apply (groups_loop h Hs d pre mode s Hmode).
      intros k x Hin. split.
      - apply In_d. apply in_app_iff. now left.
      - rewrite forallb_forall in Hpre. apply (Hpre (k, x) Hin). }
  cbn [Http.for_m eq_str].
  apply String.eqb_neq in Hg. rewrite Hg.
  erewrite bind_err.
  2:{ apply (group_body_fails h Hs d mode g v _ Hmode); auto.
      apply In_d. apply in_app_iff. right. now left. }
  rewrite extend_extend, map_app. reflexivity.
Qed.

Lemma group_that_is_not_a_mapping_stops_the_pass_witness :
  Http.add_groups (Samples.serving (Samples.ok_response Samples.doc))
    (PDict [("g1", PDict [("hosts", PList [PStr "h1"])]);
            ("g2", PList [PStr "h2"]);
            ("g3", PDict [])])
    "hosts" (Http.init (Samples.serving (Samples.ok_response Samples.doc)))
  = (Err (AttributeError "keys"),
     Expected.extend (Http.init (Samples.serving (Samples.ok_response Samples.doc)))
       (map Http.Sink
          [Http.AddGroup (PStr "g1"); Http.AddHost (PStr "h1") (PStr "g1");
           Http.AddGroup (PStr "g2")])).
Proof.
  apply (group_that_is_not_a_mapping_stops_the_pass
           (Samples.serving (Samples.ok_response Samples.doc))
           [("g1", PDict [("hosts", PList [PStr "h1"])]);
            ("g2", PList [PStr "h2"]);
            ("g3", PDict [])]
           [("g1", PDict [("hosts", PList [PStr "h1"])])]
           [("g3", PDict [])]
           "g2" "hosts" (PList [PStr "h2"]));
    try reflexivity.
  - discriminate.
  - now left.
Defined.

Section Members.
Import Http Phases Expected Frame.

Lemma members_iter (d gd : dict) (g key : string) (v : pyval) (s : state) :
  lookup g d = Some (PDict gd) -> lookup key gd = Some v ->
  members (PDict d) (PStr g) key s = (py_iter v, s).
Proof.
  intros Hg Hk. unfold members.
  rewrite (getitem_dict d g _ Hg), bind_lift_ok.
  rewrite (getitem_dict gd key _ Hk), bind_lift_ok.
  now destruct (py_iter v).
Qed.

End Members.

Section CodePoints.

(** Cutting a string into its code points loses no byte and moves none. *)
Lemma code_points_concat (s : string) : String.concat "" (code_points s) = s.
Proof.
  induction s as [|c s IH]; [reflexivity|].
  cbn [code_points]. destruct (code_points s) as [|[|c' u] us].
  - simpl in *. now subst.
  - simpl in *. destruct us; simpl in *; now rewrite IH.
  - destruct (is_continuation c').
    + destruct us; simpl in *; now rewrite <- IH.
    + cbn [String.concat] in *. now rewrite IH.
Qed.

End CodePoints.

Section Iteration.
Import Http Phases Expected Frame.

Variable h : host.
Hypothesis accepts : forall t c, sink h t c = None.

(** The members a pass finds under [key] are what iterating the value
    gives, each given its call. *)
Lemma members_iterated (d gd : dict) (g key : string) (f : pyval -> sink_call)
    (s : state) :
  lookup g d = Some (PDict gd) -> iterable_or_absent key gd = true ->
  (b <- has_mode (PDict d) (PStr g) key ;;
   when b (xs <- members (PDict d) (PStr g) key ;;
           for_m xs (fun x => call h (f x)))) s
  = (Ok tt, extend s (map (fun x => Sink (f x)) (iterated key (PDict gd)))).
Proof.
  intros Hg Hk. rewrite (bind_ok _ _ _ _ _ (has_mode_dict d gd g key s Hg)).
  rewrite mem_keys. unfold iterable_or_absent in Hk. unfold iterated.
  destruct (lookup key gd) as [x|] eqn:E; cbn [when].
  - unfold bind at 1. rewrite (members_iter d gd g key x s Hg E).
    destruct (py_iter x) as [xs|e]; [|discriminate].
    apply (for_m_calls h accepts).
  - unfold ret. now rewrite extend_nil.
Qed.

Lemma iter_loop (d l : dict) (mode : string) (s : state) :
  mode = "hosts" \/ mode = "children" ->
  (forall g v, In (g, v) l ->
     lookup g d = Some v /\ (String.eqb g "_meta" || group_iterable v) = true) ->
  for_m (map PStr (keys l))
    (fun group =>
       if eq_str group "_meta" then ret tt
       else
         call h (AddGroup group) ;;
         (if String.eqb mode "hosts" then
            b <- has_mode (PDict d) group mode ;;
            when b (hosts <- members (PDict d) group "hosts" ;;
                    for_m hosts (fun host => call h (AddHost host group)))
          else ret tt) ;;
         (if String.eqb mode "children" then
            b <- has_mode (PDict d) group mode ;;
            when b (children <- members (PDict d) group "children" ;;
                    for_m children (fun child => call h (AddChild group child)))
          else ret tt)) s
  = (Ok tt, extend s (map Sink (iter_pass mode l))).
Proof.
  intros Hmode. revert s. induction l as [|[g v] l IH]; intros s Hl.
  - simpl. now rewrite extend_nil.
  - destruct (Hl g v (or_introl eq_refl)) as [Hg Hv].
    assert (Hl' : forall g v, In (g, v) l ->
              lookup g d = Some v /\ (String.eqb g "_meta" || group_iterable v) = true)
      by (intros; apply Hl; now right).
    unfold iter_pass, groups_of.
    cbn [keys map fst snd for_m eq_str filter].
    destruct (String.eqb g "_meta") eqn:Em; cbn [negb flat_map].
    + rewrite bind_ret. apply IH, Hl'.
    + simpl in Hv. destruct v as [| | | | | |gd]; try discriminate.
      apply andb_true_iff in Hv as [Hh Hc].
      rewrite bind_assoc, (bind_ok _ _ _ _ _ (call_accepted h accepts _ s)).
      rewrite map_app, <- extend_extend.
      destruct Hmode as [-> | ->]; cbn [String.eqb Ascii.eqb Bool.eqb].
      * rewrite bind_assoc.
        rewrite (bind_ok _ _ _ _ _ (members_iterated d gd g "hosts"
                   (fun x => AddHost x (PStr g)) _ Hg Hh)).
        rewrite bind_ret.
        refine (eq_trans (IH _ Hl') _).
        cbn [map fst snd]. rewrite !extend_extend, map_map. reflexivity.
      * rewrite bind_assoc, bind_ret.
        rewrite (bind_ok _ _ _ _ _ (members_iterated d gd g "children"
                   (fun x => AddChild (PStr g) x) _ Hg Hc)).
        refine (eq_trans (IH _ Hl') _).
        cbn [map fst snd]. rewrite !extend_extend, map_map. reflexivity.
Qed.

End Iteration.

(** X16: in a document of any number of groups, each a mapping whose
    [hosts] and [children] can be iterated where present, a pass of
    [add_groups] registers every group but [_meta] in order and gives it,
    as members, what iterating the value under the mode's key gives: the
    elements of a list, the keys of a mapping, and for a string each of
    its characters (code points), one member per character. *)
Theorem members_are_what_iteration_gives :
  forall (h : Http.host) (d : dict) (mode : string) (s : Http.state),
    (forall t c, Http.sink h t c = None) ->
    Expected.distinct (keys d) = true ->
    forallb (fun kv => String.eqb (fst kv) "_meta" || Frame.group_iterable (snd kv)) d
    = true ->
    mode = "hosts" \/ mode = "children" ->
    Http.add_groups h (PDict d) mode s
    = (Ok tt, Expected.extend s (map Http.Sink (Frame.iter_pass mode d)))
    /\ (forall g gd str, In (g, PDict gd) d -> g <> "_meta" ->
          lookup mode gd = Some (PStr str) ->
          Frame.iterated mode (PDict gd) = map PStr (code_points str))
    /\ (forall g gd l, In (g, PDict gd) d -> g <> "_meta" ->
          lookup mode gd = Some (PList l) -> Frame.iterated mode (PDict gd) = l)
    /\ (forall g gd m, In (g, PDict gd) d -> g <> "_meta" ->
          lookup mode gd = Some (PDict m) ->
          Frame.iterated mode (PDict gd) = map PStr (keys m)).
Proof.
  intros h d mode s Hs Hd Hg Hmode. split.
  - unfold Http.add_groups. simpl py_iter. rewrite bind_lift_ok.
    apply (iter_loop h Hs d d mode s Hmode).
    intros g v Hin. split; [now apply lookup_distinct|].
    rewrite forallb_forall in Hg. apply (Hg (g, v) Hin).
  - repeat split; intros g gd x _ _ Hx; unfold Frame.iterated; now rewrite Hx.
Qed.

Lemma members_are_what_iteration_gives_witness :
  Phases.sink_calls
    (Http.trace
       (snd (Http.add_groups (Samples.serving (Samples.ok_response Samples.doc))
               (PDict Samples.doc_string_hosts) "hosts"
               (Http.init (Samples.serving (Samples.ok_response Samples.doc))))))
  = [Http.AddGroup (PStr "web");
     Http.AddHost (PStr "é") (PStr "web");
     Http.AddHost (PStr "1") (PStr "web");
     Http.AddGroup (PStr "db");
     Http.AddHost (PStr "db1") (PStr "db")].
Proof.
  rewrite (proj1 (members_are_what_iteration_gives
                    (Samples.serving (Samples.ok_response Samples.doc))
                    Samples.doc_string_hosts "hosts"
                    (Http.init (Samples.serving (Samples.ok_response Samples.doc)))
                    (fun _ _ => eq_refl) eq_refl eq_refl (or_introl eq_refl))).
  reflexivity.
Defined.

(** X17: in every run of [parse] the requests and the decoding of the body
    all come before the first inventory call: the trace is a run of
    events that are not inventory calls followed by a run of inventory
    calls. *)
Theorem parse_fetches_before_it_populates :
  forall h : Http.host,
    exists before after,
      Http.trace (snd (Http.run h)) = (before ++ after)%list
      /\ forallb (fun ev => negb (Expected.is_sink ev)) before = true
      /\ forallb Expected.is_sink after = true.
Proof.
  intros h. rewrite run_phases.
  destruct (Http.read_config_data h) as [[]|e0]; [|now exists [], []].
  assert (S : forall p l, forallb (Expected.pass_event p) l = true ->
                          forallb Expected.is_sink l = true).
  { intros p l. apply forallb_impl. now intros [r|r|c]. }
  destruct (emitsL_bind _ _ (Phases.fetch h) (fun _ => Phases.populate h)
              (fetch_emits h (fun ev => negb (Expected.is_sink ev))
                 (fun ev E => eq_trans (f_equal negb E) eq_refl))
              (fun _ => populate_passes h)
              (ex_intro _ [] (ex_intro _ [] (conj eq_refl (conj eq_refl
                 (ex_intro _ [] (ex_intro _ [] (conj eq_refl (conj eq_refl eq_refl))))))))
              (Phases.resolved_state h))
    as (l & E & l0 & lp & -> & H0 & l1 & lq & -> & H1 & l2 & l3 & -> & H2 & H3).
  exists l0, (l1 ++ l2 ++ l3)%list. rewrite E. split; [reflexivity|].
  split; [exact H0|].
  rewrite !forallb_app, (S _ _ H1), (S _ _ H2), (S _ _ H3). reflexivity.
Qed.
